(** * yup-ast: the JSON-to-yup converter ([source/converter/index.js])

    The converter walks a JSON description of a validation schema written in
    prefix notation ([[['yup.number'], ['yup.min', 5]]]) and builds the
    corresponding yup validator by calling into the yup library.

    The development embeds the converter as Rocq functions over JavaScript
    values.  The yup library itself, the registry of custom validators
    ([./custom.validators]) and the regular-expression engine are taken as
    parameters: the converter only ever looks up callables by name and calls
    them. *)

From Stdlib Require Import String Ascii List ZArith Lia Bool Arith.
From Stdlib Require Import DecimalString.
From Equations Require Import Equations.
Import ListNotations.

Local Open Scope list_scope.
Local Open Scope string_scope.

Set Warnings "-register-all".

(** ** JSON input nodes *)

(** The decoded schema description that the converter receives.  Numbers are
    the integer-valued doubles: the converter never computes with a number, it
    only looks at its [typeof] and at its truthiness.  [NUndefined] is not a
    JSON value; it is what indexing past the end of an array yields
    ([jsonArray[0]] on an empty array).  An [NObject] lists its own enumerable
    properties in [Object.entries] order, with distinct keys, none of them
    [__proto__].  [NRegExp source flags] is the regular expression
    [/source/flags]. *)
Inductive node : Type :=
| NUndefined
| NNull
| NBool (b : bool)
| NNumber (n : Z)
| NString (s : string)
| NRegExp (source flags : string)
| NArray (items : list node)
| NObject (entries : list (string * node)).

(** [Array.isArray]. *)
Definition isArray (x : node) : bool :=
  match x with NArray _ => true | _ => false end.

(** [typeof x === 'object']: JavaScript answers ['object'] for [null], for
    arrays and for regular expressions as well as for plain objects. *)
Definition typeof_object (x : node) : bool :=
  match x with
  | NNull | NRegExp _ _ | NArray _ | NObject _ => true
  | _ => false
  end.

(** [typeof x === 'string']. *)
Definition typeof_string (x : node) : bool :=
  match x with NString _ => true | _ => false end.

(** [Object.prototype.toString.call(obj) === '[object RegExp]']. *)
Definition isRegExp (obj : node) : bool :=
  match obj with NRegExp _ _ => true | _ => false end.

(** JavaScript truthiness ([!x] is its negation). *)
Definition truthy (x : node) : bool :=
  match x with
  | NUndefined | NNull => false
  | NBool b => b
  | NNumber n => negb (Z.eqb n 0)
  | NString s => negb (String.eqb s "")
  | _ => true
  end.

(** Decimal rendering of indices and integers.  JavaScript prints an
    integer-valued number this way as long as its magnitude is below 1e21. *)
Definition string_of_nat (n : nat) : string :=
  NilZero.string_of_uint (Nat.to_uint n).

Definition string_of_Z (n : Z) : string :=
  NilZero.string_of_int (Z.to_int n).

(** [String(x)], the conversion applied by [+] on strings and when a value is
    used as a property key.  An array joins the conversions of its elements
    with commas, [null] and [undefined] elements contributing nothing. *)
Fixpoint ToString (x : node) : string :=
  match x with
  | NUndefined => "undefined"
  | NNull => "null"
  | NBool true => "true"
  | NBool false => "false"
  | NNumber n => string_of_Z n
  | NString s => s
  | NRegExp source flags => "/" ++ source ++ "/" ++ flags
  | NArray items =>
      String.concat ","
        (map (fun i => match i with
                       | NUndefined | NNull => ""
                       | _ => ToString i
                       end) items)
  | NObject _ => "[object Object]"
  end.

(** [s.indexOf(substring)], [None] standing for [-1]. *)
Definition indexOf (s substring : string) : option nat :=
  String.index 0 substring s.

(** [s.slice(start)] for a start inside the string. *)
Definition slice (s : string) (start : nat) : string :=
  String.substring start (String.length s - start) s.

(** Strict equality [a === b] against a string. *)
Definition strict_eq_string (a : node) (b : string) : bool :=
  match a with NString s => String.eqb s b | _ => false end.

(** [Array.prototype.indexOf] searching for a string. *)
Fixpoint array_indexOf (l : list node) (x : string) : option nat :=
  match l with
  | [] => None
  | a :: t =>
      if strict_eq_string a x then Some 0
      else option_map S (array_indexOf t x)
  end.

(** [Object.entries(x)] for a non-nullish [x]: own enumerable string-keyed
    properties.  A string exposes its characters under their indices, an
    array its elements; numbers, booleans and regular expressions have none. *)
Fixpoint string_chars (s : string) : list node :=
  match s with
  | EmptyString => []
  | String c rest => NString (String c EmptyString) :: string_chars rest
  end.

Fixpoint indexed (i : nat) (l : list node) : list (string * node) :=
  match l with
  | [] => []
  | x :: t => (string_of_nat i, x) :: indexed (S i) t
  end.

Definition own_entries (x : node) : list (string * node) :=
  match x with
  | NObject entries => entries
  | NArray items => indexed 0 items
  | NString s => indexed 0 (string_chars s)
  | _ => []
  end.

(** ** Size of a node, for termination *)

Fixpoint weight (x : node) : nat :=
  match x with
  | NArray items => 3 + list_sum (map weight items)
  | NObject entries => 1 + list_sum (map (fun e => weight (snd e)) entries)
  | _ => 1
  end.

(** ** [JSON.stringify(x, null, 4)] *)

Definition hex_digit (n : nat) : ascii :=
  match n with
  | 0 => "0" | 1 => "1" | 2 => "2" | 3 => "3" | 4 => "4" | 5 => "5"
  | 6 => "6" | 7 => "7" | 8 => "8" | 9 => "9" | 10 => "a" | 11 => "b"
  | 12 => "c" | 13 => "d" | 14 => "e" | _ => "f"
  end%char.

Definition dquote : string := String (ascii_of_nat 34) "".

(** One character of a quoted JSON string (QuoteJSONString). *)
Definition quote_char (c : ascii) : string :=
  let n := nat_of_ascii c in
  if Nat.eqb n 34 then "\" ++ dquote
  else if Nat.eqb n 92 then "\\"
  else if Nat.eqb n 8 then "\b"
  else if Nat.eqb n 9 then "\t"
  else if Nat.eqb n 10 then "\n"
  else if Nat.eqb n 12 then "\f"
  else if Nat.eqb n 13 then "\r"
  else if Nat.ltb n 32 then
    "\u00" ++ String (hex_digit (n / 16)) (String (hex_digit (n mod 16)) "")
  else String c "".

Fixpoint quote_body (s : string) : string :=
  match s with
  | EmptyString => ""
  | String c rest => quote_char c ++ quote_body rest
  end.

Definition quote (s : string) : string := dquote ++ quote_body s ++ dquote.

Definition newline : string := String (ascii_of_nat 10) "".

(** The indentation unit passed to [JSON.stringify]: four spaces. *)
Definition gap : string := "    ".

(** SerializeJSONProperty: [None] is the [undefined] returned for a value that
    has no JSON text.  Such a value prints as [null] inside an array and its
    property is left out of an object.  A regular expression is an object
    without enumerable own properties. *)
Fixpoint serialize (indent : string) (x : node) : option string :=
  match x with
  | NUndefined => None
  | NNull => Some "null"
  | NBool true => Some "true"
  | NBool false => Some "false"
  | NNumber n => Some (string_of_Z n)
  | NString s => Some (quote s)
  | NRegExp _ _ => Some "{}"
  | NArray items =>
      let stepback := indent in
      let indent := indent ++ gap in
      let partial :=
        map (fun i => match serialize indent i with
                      | Some s => s
                      | None => "null"
                      end) items in
      match partial with
      | [] => Some "[]"
      | _ =>
          let separator := "," ++ newline ++ indent in
          Some ("[" ++ newline ++ indent ++ String.concat separator partial
                    ++ newline ++ stepback ++ "]")
      end
  | NObject entries =>
      let stepback := indent in
      let indent := indent ++ gap in
      let partial :=
        flat_map (fun e => match serialize indent (snd e) with
                           | Some s => [quote (fst e) ++ ": " ++ s]
                           | None => []
                           end) entries in
      match partial with
      | [] => Some "{}"
      | _ =>
          let separator := "," ++ newline ++ indent in
          Some ("{" ++ newline ++ indent ++ String.concat separator partial
                    ++ newline ++ stepback ++ "}")
      end
  end.

(** [JSON.stringify(x, null, 4)] as it appears inside a string
    concatenation, where an [undefined] result reads ["undefined"]. *)
Definition JSON_stringify (x : node) : string :=
  match serialize "" x with
  | Some s => s
  | None => "undefined"
  end.

(** ** Errors *)

(** What a call can throw.  [ValidationError] is the class private to the
    converter module: it is not exported, so no builder can raise it.
    [TypeError] and [SyntaxError] come from the JavaScript runtime,
    [Thrown] is whatever a builder of the library or of the registry throws,
    and [Error] is the plain error that [transform] creates. *)
Inductive exn (host_exn : Type) : Type :=
| ValidationError (message : string)
| TypeError
| SyntaxError (pattern : string)
| Thrown (e : host_exn)
| Error (message : string).

Arguments ValidationError {host_exn} message.
Arguments TypeError {host_exn}.
Arguments SyntaxError {host_exn} pattern.
Arguments Thrown {host_exn} e.
Arguments Error {host_exn} message.

(** [error instanceof ValidationError]. *)
Definition instanceof_ValidationError {E} (error : exn E) : bool :=
  match error with ValidationError _ => true | _ => false end.

Inductive result (E A : Type) : Type :=
| Ok (a : A)
| Throw (e : exn E).

Arguments Ok {E A} a.
Arguments Throw {E A} e.

Definition bind {E A B} (m : result E A) (k : A -> result E B) : result E B :=
  match m with
  | Ok a => k a
  | Throw e => Throw e
  end.

Notation "x <- m ;; k" := (bind m (fun x => k))
  (at level 61, m at next level, right associativity).

(** Left-to-right traversals that stop at the first throw: [Array.map] and
    [Array.forEach] with a callback that may throw. *)
Fixpoint mapM {E A B} (f : A -> result E B) (l : list A) : result E (list B) :=
  match l with
  | [] => Ok []
  | x :: t => y <- f x ;; ys <- mapM f t ;; Ok (y :: ys)
  end.

Fixpoint foldM {E A B} (f : B -> A -> result E B) (l : list A) (b : B)
  : result E B :=
  match l with
  | [] => Ok b
  | x :: t => b' <- f b x ;; foldM f t b'
  end.

(** The same traversals, handing the callback a proof that the element it
    receives belongs to the list; used to define the compiler by
    well-founded recursion. *)
Fixpoint mapM_in {E A B} (l : list A)
  : (forall x, In x l -> result E B) -> result E (list B) :=
  match l with
  | [] => fun _ => Ok []
  | x :: t => fun f =>
      y <- f x (or_introl eq_refl) ;;
      ys <- mapM_in t (fun z H => f z (or_intror H)) ;;
      Ok (y :: ys)
  end.

Fixpoint foldM_in {E A B} (l : list A)
  : (B -> forall x, In x l -> result E B) -> B -> result E B :=
  match l with
  | [] => fun _ b => Ok b
  | x :: t => fun f b =>
      b' <- f b x (or_introl eq_refl) ;;
      foldM_in t (fun c z H => f c z (or_intror H)) b'
  end.

(** ** Values and the library interface *)

(** Values the converter produces: JSON literals passed through, arrays and
    objects it assembles, and [VHost], the objects that live on the library
    side (the module namespace, the validators and references that builders
    return, functions). *)
Inductive value (host : Type) : Type :=
| VUndefined
| VNull
| VBool (b : bool)
| VNumber (n : Z)
| VString (s : string)
| VRegExp (source flags : string)
| VArray (items : list (value host))
| VObject (entries : list (string * value host))
| VHost (h : host).

Arguments VUndefined {host}.
Arguments VNull {host}.
Arguments VBool {host} b.
Arguments VNumber {host} n.
Arguments VString {host} s.
Arguments VRegExp {host} source flags.
Arguments VArray {host} items.
Arguments VObject {host} entries.
Arguments VHost {host} h.

(** A JSON node used as a value, unchanged. *)
Fixpoint lit {host} (x : node) : value host :=
  match x with
  | NUndefined => VUndefined
  | NNull => VNull
  | NBool b => VBool b
  | NNumber n => VNumber n
  | NString s => VString s
  | NRegExp source flags => VRegExp source flags
  | NArray items => VArray (map lit items)
  | NObject entries => VObject (map (fun e => (fst e, lit (snd e))) entries)
  end.

(** Truthiness of a value, as tested by [filter(i => i)]. *)
Definition value_truthy {host} (v : value host) : bool :=
  match v with
  | VUndefined | VNull => false
  | VBool b => b
  | VNumber n => negb (Z.eqb n 0)
  | VString s => negb (String.eqb s "")
  | _ => true
  end.

(** [toReturn[key] = v] on an object under construction, for a key other
    than [__proto__]: assigning to that key goes through the setter of
    [Object.prototype] and creates no property. *)
Fixpoint obj_set {host} (o : list (string * value host)) (key : string)
  (v : value host) : list (string * value host) :=
  match o with
  | [] => [(key, v)]
  | (k, w) :: rest =>
      if String.eqb k key then (k, v) :: rest
      else (k, w) :: obj_set rest key v
  end.

(** A builder: a JavaScript function already bound to its receiver.  It
    returns a value or throws something of its own. *)
Definition builder (host host_exn : Type) : Type :=
  list (value host) -> value host + host_exn.

Definition invoke {host host_exn} (f : builder host host_exn)
  (args : list (value host)) : result host_exn (value host) :=
  match f args with
  | inl v => Ok v
  | inr e => Throw (Thrown e)
  end.

(** What the converter imports: the yup module, the registry of custom
    validators, and the regular-expression engine of the runtime. *)
Class Library : Type := {
  (** objects of the library *)
  host : Type;
  (** whatever a builder throws *)
  host_exn : Type;
  (** the module namespace object ([import * as yup from 'yup']) *)
  yup : host;
  (** [get_method o name] is [Some (o[name].bind(o))] when
      [typeof o[name] === 'function'], for an [o] other than [null] and
      [undefined] *)
  get_method : value host -> string -> option (builder host host_exn);
  (** [getCustomValidator] of [./custom.validators]: a lookup that answers a
      builder or nothing *)
  getCustomValidator : node -> option (builder host host_exn);
  (** whether [new RegExp(pattern)] accepts the pattern; it throws a
      [SyntaxError] otherwise *)
  RegExp_valid : string -> bool
}.

(** ** The converter *)

Section Converter.

Context {L : Library}.

Local Abbreviation val := (value host).
Local Abbreviation res := (result host_exn).
Local Abbreviation fn := (builder host host_exn).

(** A parameter declared [previousInstance = yup]: the default replaces a
    missing or [undefined] argument. *)
Definition or_yup (previousInstance : val) : val :=
  match previousInstance with
  | VUndefined => VHost yup
  | v => v
  end.

(** Reading [o[name]]: a [TypeError] on [null] and [undefined]. *)
Definition member (o : val) (name : string) : res (option fn) :=
  match o with
  | VUndefined | VNull => Throw TypeError
  | _ => Ok (get_method o name)
  end.

(** [getSubString(string, substring)]: [None] is the [null] result.  A
    truthy argument that is neither a string nor an array has no callable
    [indexOf]; an array answers with its own [indexOf] and [slice]. *)
Definition getSubString (string : node) (substring : String.string)
  : res (option node) :=
  if negb (truthy string) then Ok None
  else
    match string with
    | NString s =>
        match indexOf s substring with
        | Some testedIndex =>
            Ok (Some (NString (slice s (testedIndex + String.length substring))))
        | None => Ok None
        end
    | NArray items =>
        match array_indexOf items substring with
        | Some testedIndex =>
            Ok (Some (NArray (skipn (testedIndex + String.length substring) items)))
        | None => Ok None
        end
    | _ => Throw TypeError
    end.

(** [getYupFunction(functionName, previousInstance = yup)]. *)
Definition getYupFunction (functionName : node) (previousInstance : val)
  : res fn :=
  let previousInstance := or_yup previousInstance in
  let functionName :=
    match functionName with
    | NArray items => nth 0 items NUndefined
    | _ => functionName
    end in
  match getCustomValidator functionName with
  | Some customValidator => Ok customValidator
  | None =>
      yupName <- getSubString functionName "yup." ;;
      let not_found :=
        Throw (ValidationError
                 ("Could not find validator " ++ ToString functionName)) in
      match yupName with
      | Some name =>
          if truthy name then
            m <- member previousInstance (ToString name) ;;
            match m with
            | Some f => Ok f
            | None =>
                match get_method (VHost yup) (ToString name) with
                | Some f => Ok f
                | None => not_found
                end
            end
          else not_found
      | None => not_found
      end
  end.

(** [isPrefixNotation([functionName])], applied to arrays only. *)
Fixpoint isPrefixNotation (item : node) : bool :=
  match item with
  | NArray (functionName :: _) =>
      if (if isArray functionName then isPrefixNotation functionName
          else false)
      then true
      else
        match functionName with
        | NString s =>
            match indexOf s "yup." with
            | Some _ => true
            | None => false
            end
        | _ => false
        end
  | _ => false
  end.

(** [ensureArray(maybeArray)], as the list of the array's elements. *)
Definition ensureArray (maybeArray : node) : list node :=
  match maybeArray with
  | NArray items => items
  | _ => [maybeArray]
  end.

(** The special case of [convertArray] for [matches()]: a first argument
    that is not an object must be a string and is turned into a regular
    expression. *)
Definition matchesArgument (functionName : node) (argsToPass : list node)
  : res (list node) :=
  if strict_eq_string functionName "yup.matches"
     && negb (typeof_object (nth 0 argsToPass NUndefined))
  then
    match nth 0 argsToPass NUndefined with
    | NString regexString =>
        if RegExp_valid regexString
        then Ok (NRegExp regexString "" :: tl argsToPass)
        else Throw (SyntaxError regexString)
    | _ =>
        Throw (ValidationError
          "The first argument to matches() must be either a RegExp or a string")
    end
  else Ok argsToPass.

(** [Object.entries(x)]. *)
Definition Object_entries (x : node) : res (list (string * node)) :=
  match x with
  | NUndefined | NNull => Throw TypeError
  | _ => Ok (own_entries x)
  end.

(** The four mutually recursive functions of the converter, as the calls
    that one of them can make to another. *)
Inductive call : Type :=
| TransformAll (jsonObjectOrArray : node) (previousInstance : val)
| TransformArray (jsonArray : list node) (previousInstance : val)
| ConvertArray (arrayArgument : node) (previousInstance : val)
| TransformObject (jsonObject : node) (previousInstance : val).

Definition call_weight (c : call) : nat :=
  match c with
  | TransformAll x _ =>
      match x with
      | NArray [] => 0
      | _ => 4 * weight x + 3
      end
  | TransformArray l _ => 4 * weight (NArray l) + 1
  | ConvertArray x _ => 4 * weight x + 2
  | TransformObject x _ => 4 * weight x
  end.

(** Facts on [weight] that the termination argument relies on. *)
Lemma weight_pos (x : node) : 1 <= weight x.
Proof. destruct x; simpl; lia. Qed.

Lemma weight_In (x : node) (l : list node) :
  In x l -> weight x <= list_sum (map weight l).
Proof.
  induction l as [|y l IH]; simpl; [tauto|].
  intros [->|H]; [lia|]. specialize (IH H). lia.
Qed.

Lemma weight_array (x : node) :
  isArray x = true -> weight x = 3 + list_sum (map weight (ensureArray x)).
Proof. destruct x; simpl; congruence. Qed.

Lemma weight_head (l : list node) :
  weight (nth 0 l NUndefined) <= 1 + list_sum (map weight l).
Proof. destruct l; simpl; lia. Qed.

Lemma In_tl {A} (x : A) (l : list A) : In x (tl l) -> In x l.
Proof. destruct l; simpl; tauto. Qed.

Lemma head_array_is_array (x : node) :
  isArray (nth 0 (ensureArray x) NUndefined) = true -> isArray x = true.
Proof. destruct x; simpl; congruence. Qed.

Lemma matchesArgument_weight fn args args' :
  matchesArgument fn args = Ok args' ->
  list_sum (map weight args') = list_sum (map weight args).
Proof.
  unfold matchesArgument.
  destruct (strict_eq_string fn "yup.matches" && _); [|congruence].
  destruct args as [|a args]; simpl; [congruence|].
  destruct a; try congruence.
  destruct (RegExp_valid s); [|congruence].
  intros [= <-]. reflexivity.
Qed.

Lemma weight_tl_ensureArray (x : node) :
  list_sum (map weight (tl (ensureArray x))) = 0 \/
  4 + list_sum (map weight (tl (ensureArray x))) <= weight x.
Proof.
  destruct x as [| | | | | |[|y l]|]; simpl; auto.
  pose proof (weight_pos y). lia.
Qed.

Lemma indexed_In k v i l : In (k, v) (indexed i l) -> In v l.
Proof.
  revert i. induction l as [|y l IH]; simpl; intros i; [tauto|].
  intros [[= _ ->]|H]; [now left|right; eauto].
Qed.

Lemma string_chars_In v s : In v (string_chars s) -> typeof_object v = false.
Proof.
  induction s as [|c s IH]; simpl; [tauto|].
  intros [<-|H]; [reflexivity|auto].
Qed.

Lemma weight_entry (x : node) es k v :
  Object_entries x = Ok es -> In (k, v) es ->
  typeof_object v = true -> weight v < weight x.
Proof.
  intros Hx Hin Hv.
  assert (es = own_entries x) as -> by (destruct x; unfold Object_entries in Hx; congruence).
  destruct x; simpl in Hin; try tauto.
  - apply indexed_In, string_chars_In in Hin. congruence.
  - apply indexed_In, weight_In in Hin. simpl. lia.
  - simpl. apply (in_map (fun e => weight (snd e))) in Hin.
    simpl in Hin. revert Hin. generalize (map (fun e => weight (snd e)) entries).
    intros ws. induction ws as [|w ws IH]; simpl; [tauto|].
    intros [->|H]; [lia|]. specialize (IH H). lia.
Qed.

Lemma isArray_typeof_object (x : node) :
  isArray x = true -> typeof_object x = true.
Proof. destruct x; simpl; congruence. Qed.

(** Every call that one function of the converter makes to another is on a
    smaller argument. *)
Lemma smaller_all_chain (x : node) (p p' : val) :
  isArray x = true -> isPrefixNotation x = true ->
  call_weight (TransformArray (ensureArray x) p) < call_weight (TransformAll x p').
Proof.
  destruct x as [| | | | | |[|]|]; simpl; try discriminate; lia.
Qed.

Lemma smaller_all_item (x i : node) (p p' : val) :
  isArray x = true -> In i (ensureArray x) ->
  call_weight (TransformAll i p) < call_weight (TransformAll x p').
Proof.
  destruct x as [| | | | | |l|]; try discriminate. intros _ Hi.
  simpl in Hi. apply weight_In in Hi.
  destruct l; [simpl in Hi; pose proof (weight_pos i); lia|].
  destruct i as [| | | | | |[|]|]; simpl in *; lia.
Qed.

Lemma smaller_all_shape (x : node) (p p' : val) :
  isArray x <> true ->
  call_weight (TransformObject x p) < call_weight (TransformAll x p').
Proof. destruct x; simpl; try lia; congruence. Qed.

Lemma smaller_chain_first (l : list node) (p p' : val) :
  call_weight (ConvertArray (nth 0 l NUndefined) p)
  < call_weight (TransformArray l p').
Proof. pose proof (weight_head l). simpl. lia. Qed.

Lemma smaller_chain_item (l : list node) (item : node) (p p' : val) :
  In item (tl l) ->
  call_weight (ConvertArray item p) < call_weight (TransformArray l p').
Proof. intros H. apply In_tl, weight_In in H. simpl. lia. Qed.

Lemma smaller_chain_shape (l : list node) (item : node) (p p' : val) :
  In item (tl l) ->
  call_weight (TransformObject item p) < call_weight (TransformArray l p').
Proof. intros H. apply In_tl, weight_In in H. simpl. lia. Qed.

Lemma smaller_invocation_chain (x : node) (p p' : val) :
  isArray (nth 0 (ensureArray x) NUndefined) = true ->
  call_weight (TransformArray (ensureArray x) p) < call_weight (ConvertArray x p').
Proof.
  intros H. apply head_array_is_array, weight_array in H. simpl. lia.
Qed.

Lemma smaller_invocation_args (x : node) (args : list node) (p p' : val) :
  matchesArgument (nth 0 (ensureArray x) NUndefined) (tl (ensureArray x))
  = Ok args ->
  call_weight (TransformAll (NArray args) p) < call_weight (ConvertArray x p').
Proof.
  intros H. apply matchesArgument_weight in H.
  pose proof (weight_tl_ensureArray x) as Hw.
  destruct args as [|a args]; [simpl; lia|].
  rewrite <- H in Hw. simpl in Hw |- *.
  pose proof (weight_pos a). lia.
Qed.

Lemma smaller_shape_chain (x : node) (entries : list (string * node))
  (e : string * node) (p p' : val) :
  Object_entries x = Ok entries -> In e entries -> isArray (snd e) = true ->
  call_weight (TransformArray (ensureArray (snd e)) p)
  < call_weight (TransformObject x p').
Proof.
  destruct e as [k v]. intros Hx He Hv.
  pose proof (weight_entry _ _ _ _ Hx He (isArray_typeof_object _ Hv)).
  apply weight_array in Hv. simpl in *. lia.
Qed.

Lemma smaller_shape_shape (x : node) (entries : list (string * node))
  (e : string * node) (p p' : val) :
  Object_entries x = Ok entries -> In e entries ->
  typeof_object (snd e) = true ->
  call_weight (TransformObject (snd e) p) < call_weight (TransformObject x p').
Proof.
  destruct e as [k v]. intros Hx He Hv.
  pose proof (weight_entry _ _ _ _ Hx He Hv). simpl in *. lia.
Qed.

#[local] Obligation Tactic := idtac.

(** The compiler proper.  Each clause is one function of the source; a call
    written without its second argument passes [VUndefined], which the callee
    replaces by [yup].  In [convertArray], [transformArray(arrayArgument)] is
    reached only when [arrayArgument] is an array, on which [ensureArray] is
    the identity. *)
Equations? exec (c : call) : res val by wf (call_weight c) lt :=
exec (ConvertArray arrayArgument previousInstance0) :=
  let previousInstance := or_yup previousInstance0 in
  let functionName := nth 0 (ensureArray arrayArgument) NUndefined in
  let argsToPass := tl (ensureArray arrayArgument) in
  match bool_dec (isArray functionName) true with
  | left Hyes => exec (TransformArray (ensureArray arrayArgument) VUndefined)
  | right _ =>
      gotFunc <- getYupFunction functionName previousInstance ;;
      match matchesArgument functionName argsToPass as r
            return (matchesArgument functionName argsToPass = r -> res val)
      with
      | Throw e => fun _ => Throw e
      | Ok argsToPass' => fun Hargs =>
          convertedArguments <-
            exec (TransformAll (NArray argsToPass') previousInstance) ;;
          match convertedArguments with
          | VArray items =>
              if Nat.ltb (List.length (filter value_truthy items)) 1
              then invoke gotFunc []
              else invoke gotFunc items
          | _ => invoke gotFunc [convertedArguments]
          end
      end eq_refl
  end;
exec (TransformArray jsonArray previousInstance0) :=
  let previousInstance := or_yup previousInstance0 in
  toReturn <- exec (ConvertArray (nth 0 jsonArray NUndefined) previousInstance) ;;
  foldM_in (tl jsonArray)
    (fun toReturn item Hitem =>
       match bool_dec (isArray item) true with
       | left Hyes => exec (ConvertArray item toReturn)
       | right _ =>
           if strict_eq_string item "object"
           then exec (TransformObject item previousInstance)
           else
             match toReturn with
             | VArray items => Ok (VArray (items ++ [lit item]))
             | _ => Ok (VArray [toReturn; lit item])
             end
       end)
    toReturn;
exec (TransformObject jsonObject previousInstance0) :=
  let previousInstance := or_yup previousInstance0 in
  match Object_entries jsonObject as r
        return (Object_entries jsonObject = r -> res val)
  with
  | Throw e => fun _ => Throw e
  | Ok entries => fun Hentries =>
      toReturn <-
        foldM_in entries
          (fun toReturn e He =>
             match bool_dec (isArray (snd e)) true with
             | left Hyes =>
                 v <- exec (TransformArray (ensureArray (snd e)) previousInstance) ;;
                 Ok (obj_set toReturn (fst e) v)
             | right _ =>
                 match bool_dec (typeof_object (snd e)) true with
                 | left Hyes =>
                     v <- exec (TransformObject (snd e) previousInstance) ;;
                     Ok (obj_set toReturn (fst e) v)
                 | right _ => Ok (obj_set toReturn (fst e) (lit (snd e)))
                 end
             end)
          [] ;;
      Ok (VObject toReturn)
  end eq_refl;
exec (TransformAll jsonObjectOrArray previousInstance0) :=
  let previousInstance := or_yup previousInstance0 in
  match bool_dec (isArray jsonObjectOrArray) true with
  | left Hyes =>
      match bool_dec (isPrefixNotation jsonObjectOrArray) true with
      | left Hyes =>
          exec (TransformArray (ensureArray jsonObjectOrArray) previousInstance)
      | right _ =>
          items <- mapM_in (ensureArray jsonObjectOrArray)
                     (fun i Hi => exec (TransformAll i previousInstance)) ;;
          Ok (VArray items)
      end
  | right _ =>
      match bool_dec (typeof_object jsonObjectOrArray
                      && negb (isRegExp jsonObjectOrArray)) true with
      | left Hyes => exec (TransformObject jsonObjectOrArray previousInstance)
      | right _ => Ok (lit jsonObjectOrArray)
      end
  end.
Proof.
  - now apply smaller_all_chain.
  - now apply (smaller_all_item jsonObjectOrArray).
  - now apply smaller_all_shape.
  - apply smaller_chain_first.
  - now apply smaller_chain_item.
  - now apply smaller_chain_shape.
  - now apply smaller_invocation_chain.
  - now apply smaller_invocation_args.
  - now apply (smaller_shape_chain jsonObject entries).
  - now apply (smaller_shape_shape jsonObject entries).
Qed.

(** The functions of the source, by name. *)
Definition transformAll (jsonObjectOrArray : node) (previousInstance : val)
  : res val :=
  exec (TransformAll jsonObjectOrArray previousInstance).

Definition transformArray (jsonArray : list node) (previousInstance : val)
  : res val :=
  exec (TransformArray jsonArray previousInstance).

Definition convertArray (arrayArgument : node) (previousInstance : val)
  : res val :=
  exec (ConvertArray arrayArgument previousInstance).

Definition transformObject (jsonObject : node) (previousInstance : val)
  : res val :=
  exec (TransformObject jsonObject previousInstance).

(** The callback of [jsonArray.slice(1).forEach] in [transformArray]: one
    step of the chain, from the accumulator [toReturn] and the next element. *)
Definition chain_step (previousInstance toReturn : val) (item : node)
  : res val :=
  if isArray item then convertArray item toReturn
  else if strict_eq_string item "object"
  then transformObject item previousInstance
  else
    match toReturn with
    | VArray items => Ok (VArray (items ++ [lit item]))
    | _ => Ok (VArray [toReturn; lit item])
    end.

(** The callback of [Object.entries(jsonObject).forEach] in
    [transformObject]. *)
Definition shape_step (previousInstance : val)
  (toReturn : list (string * val)) (entry : string * node)
  : res (list (string * val)) :=
  let (key, value) := entry in
  if isArray value then
    v <- transformArray (ensureArray value) previousInstance ;;
    Ok (obj_set toReturn key v)
  else if typeof_object value then
    v <- transformObject value previousInstance ;;
    Ok (obj_set toReturn key v)
  else Ok (obj_set toReturn key (lit value)).

(** The last lines of [convertArray]: how the builder is called. *)
Definition callWith (gotFunc : fn) (convertedArguments : val)
  : res val :=
  match convertedArguments with
  | VArray items =>
      if Nat.ltb (List.length (filter value_truthy items)) 1
      then invoke gotFunc []
      else invoke gotFunc items
  | _ => invoke gotFunc [convertedArguments]
  end.

(** [transform(jsonObjectOrArray)], the entry point. *)
Definition transform (jsonObjectOrArray : node) : res val :=
  let attempt :=
    if negb (isArray jsonObjectOrArray) then
      transformAll
        (NArray [NArray [NString "yup.object"];
                 NArray [NString "yup.required"];
                 NArray [NString "yup.shape"; jsonObjectOrArray]])
        VUndefined
    else transformAll jsonObjectOrArray VUndefined in
  match attempt with
  | Ok v => Ok v
  | Throw error =>
      match error with
      | ValidationError message =>
          Throw (Error ("Could not validate "
                          ++ JSON_stringify jsonObjectOrArray
                          ++ newline ++ message))
      | _ => Throw error
      end
  end.

End Converter.

(** ** The specification's vocabulary *)

(** The marker substring that identifies a reference to a library builder. *)
Definition marker : string := "yup.".

(** "A string containing the marker substring". *)
Definition contains (sub s : string) : Prop :=
  exists pre post, s = pre ++ sub ++ post.

(** "Treat the sequence as an Invocation iff its head element is a string
    containing the marker substring, or is itself a Sequence whose head
    recursively satisfies this same test." *)
Inductive Invocation : list node -> Prop :=
| Invocation_name (name : string) (args : list node) :
    contains marker name -> Invocation (NString name :: args)
| Invocation_nested (head args : list node) :
    Invocation head -> Invocation (NArray head :: args).

(** The synthetic chain [object -> required -> shape(node)] that [transform]
    compiles for a bare mapping. *)
Definition explicit_chain (x : node) : node :=
  NArray [NArray [NString "yup.object"];
          NArray [NString "yup.required"];
          NArray [NString "yup.shape"; x]].

(** "The remainder after the marker": what follows the first occurrence of
    the marker in a name, if there is one. *)
Definition after_marker (name : string) : option string :=
  match indexOf name marker with
  | Some i => Some (slice name (i + String.length marker))
  | None => None
  end.

(** "Every element is falsy". *)
Definition all_falsy {host} (items : list (value host)) : bool :=
  forallb (fun v => negb (value_truthy v)) items.

(** The arguments that the builder receives, for given compiled arguments:
    none when they are a list of falsy elements, the elements of the list
    otherwise, and the compiled value itself when it is not a list. *)
Definition passed_arguments {host} (compiled : value host)
  : list (value host) :=
  match compiled with
  | VArray items => if all_falsy items then [] else items
  | single => [single]
  end.

(** A bare literal of a chain: "not a Sequence and not the shape-continuation
    marker". *)
Definition shape_continuation : node := NString "object".

Definition append_literal {host} (toReturn : value host) (item : node)
  : value host :=
  match toReturn with
  | VArray items => VArray (items ++ [lit item])
  | _ => VArray [toReturn; lit item]
  end.

Section Resolution.

Context {L : Library}.

Definition not_found (name : string) : result host_exn (builder host host_exn) :=
  Throw (ValidationError ("Could not find validator " ++ name)).


End Resolution.

(** ** A small library to run the converter on *)

(** A schema remembers its base type and the refinements applied to it, each
    with the kinds of the arguments it received. *)
Inductive demo_host : Type :=
| Yup
| Schema (type : string) (calls : list (string * list string)).

Definition kind_of (v : value demo_host) : string :=
  match v with
  | VUndefined => "undefined"
  | VNull => "null"
  | VBool _ => "boolean"
  | VNumber n => string_of_Z n
  | VString s => quote s
  | VRegExp source flags => "/" ++ source ++ "/" ++ flags
  | VArray _ => "array"
  | VObject _ => "object"
  | VHost _ => "schema"
  end.

Definition mem (s : string) (l : list string) : bool :=
  existsb (String.eqb s) l.

Definition demo_get_method (o : value demo_host) (name : string)
  : option (builder demo_host Empty_set) :=
  match o with
  | VHost Yup =>
      if mem name ["mixed"; "string"; "number"; "boolean"; "object"; "array"]
      then Some (fun _ => inl (VHost (Schema name [])))
      else None
  | VHost (Schema type calls) =>
      if mem name ["required"; "min"; "max"; "shape"; "matches"; "of"]
      then Some (fun args =>
                   inl (VHost (Schema type (calls ++ [(name, map kind_of args)]))))
      else None
  | _ => None
  end.

(** The registry holds one custom validator, which answers [null]. *)
Definition demo_custom (name : node)
  : option (builder demo_host Empty_set) :=
  match name with
  | NString "custom.null" => Some (fun _ => inl VNull)
  | _ => None
  end.

(** The engine rejects the unbalanced pattern ["("]. *)
Definition demo_RegExp_valid (pattern : string) : bool :=
  negb (String.eqb pattern "(").

Definition demo : Library :=
  {| host := demo_host;
     host_exn := Empty_set;
     yup := Yup;
     get_method := demo_get_method;
     getCustomValidator := demo_custom;
     RegExp_valid := demo_RegExp_valid |}.

(** The node that [transform] hands to the compiler. *)
Definition compiled_input (x : node) : node :=
  if isArray x then x else explicit_chain x.

(** The error that only [transform] creates. *)
Definition is_wrapper {E} (error : exn E) : bool :=
  match error with Error _ => true | _ => false end.

(** The message of the error that [transform] creates. *)
Definition wrapped_message (x : node) (message : string) : string :=
  "Could not validate " ++ JSON_stringify x ++ newline ++ message.

(** The message of the argument-shape error. *)
Definition matches_message : string :=
  "The first argument to matches() must be either a RegExp or a string".

(** Schemas used in the examples. *)
Definition number_chain : node :=
  NArray [NArray [NString "yup.number"]; NArray [NString "yup.required"];
          NArray [NString "yup.min"; NNumber 50];
          NArray [NString "yup.max"; NNumber 500]].

Definition bogus_shape : node :=
  NObject [("x", NArray [NArray [NString "bogus"]])].

Definition string_schema : value demo_host := VHost (Schema "string" []).

Definition number_schema : value demo_host := VHost (Schema "number" []).

(** The builders that the demo library answers for [string.matches] and
    [number.min]. *)
Definition string_matches : builder demo_host Empty_set :=
  fun args => inl (VHost (Schema "string" ([] ++ [("matches", map kind_of args)]))).

Definition number_min : builder demo_host Empty_set :=
  fun args => inl (VHost (Schema "number" ([] ++ [("min", map kind_of args)]))).

(** ** Plain data *)

(** An argument that [transformAll] returns as it is: not an array, and not
    an object other than a regular expression. *)
Definition literal_argument (x : node) : bool :=
  negb (isArray x) && negb (typeof_object x && negb (isRegExp x)).

Fixpoint distinct (keys : list string) : bool :=
  match keys with
  | [] => true
  | k :: rest => negb (mem k rest) && distinct rest
  end.

(** Data that holds no invocation.  At the top and inside a list: no [null],
    no list whose head makes it an invocation.  As the value of a key of a
    mapping ([field] is [true]): no list at all, since [transformObject]
    compiles every list as a chain, and no regular expression, since it
    walks into every object.  The keys of a mapping are distinct and none of
    them is [__proto__], which an assignment does not create. *)
Fixpoint plain (field : bool) (x : node) : bool :=
  match x with
  | NNull => false
  | NRegExp _ _ => negb field
  | NArray items =>
      negb field && negb (isPrefixNotation x) && forallb (plain false) items
  | NObject entries =>
      negb (mem "__proto__" (map fst entries))
      && distinct (map fst entries)
      && forallb (fun e => plain true (snd e)) entries
  | _ => true
  end.

(** More schemas and builders of the demo library, for the examples. *)
Definition plain_sample : node :=
  NArray [NNumber 1; NObject [("a", NString "b"); ("c", NObject [])]].

Definition field_sample : list (string * node) :=
  [("x", NArray [NArray [NString "yup.number"]])].

Definition object_schema : value demo_host := VHost (Schema "object" []).

Definition required_object_schema : value demo_host :=
  VHost (Schema "object" [("required", [])]).

Definition yup_object : builder demo_host Empty_set :=
  fun _ => inl (VHost (Schema "object" [])).

Definition object_required : builder demo_host Empty_set :=
  fun args => inl (VHost (Schema "object" ([] ++ [("required", map kind_of args)]))).

Definition object_shape : builder demo_host Empty_set :=
  fun args =>
    inl (VHost (Schema "object"
                  ([("required", [])] ++ [("shape", map kind_of args)]))).

(** ** Properties of the converter *)

Section Properties.

Context {L : Library}.

Local Abbreviation val := (value host).
Local Abbreviation res := (result host_exn).
Local Abbreviation fn := (builder host host_exn).

Arguments exec : simpl never.
Arguments transformAll : simpl never.
Arguments transformArray : simpl never.
Arguments convertArray : simpl never.
Arguments transformObject : simpl never.

(** *** Defining equations *)

Lemma mapM_in_mapM {A B} (f : A -> res B) (l : list A) :
  mapM_in l (fun x _ => f x) = mapM f l.
Proof. induction l as [|x l IH]; simpl; [reflexivity|]. now rewrite IH. Qed.

Lemma foldM_in_foldM {A B} (f : B -> A -> res B) (l : list A) (b : B) :
  foldM_in l (fun c x _ => f c x) b = foldM f l b.
Proof.
  revert b. induction l as [|x l IH]; simpl; intros b; [reflexivity|].
  destruct (f b x); simpl; [apply IH|reflexivity].
Qed.

Lemma foldM_ext {A B} (f g : B -> A -> res B) (l : list A) (b : B) :
  (forall c x, f c x = g c x) -> foldM f l b = foldM g l b.
Proof.
  intros H. revert b. induction l as [|x l IH]; simpl; intros b; [reflexivity|].
  rewrite H. destruct (g b x); simpl; [apply IH|reflexivity].
Qed.

Lemma bind_remember {A B} (r : res A) (k : A -> res B) :
  match r as r' return (r = r' -> res B) with
  | Ok a => fun _ => k a
  | Throw e => fun _ => Throw e
  end eq_refl = bind r k.
Proof. destruct r; reflexivity. Qed.

Lemma transformAll_eq (jsonObjectOrArray : node) (previousInstance : val) :
  transformAll jsonObjectOrArray previousInstance =
  if isArray jsonObjectOrArray then
    if isPrefixNotation jsonObjectOrArray
    then transformArray (ensureArray jsonObjectOrArray)
           (or_yup previousInstance)
    else
      items <- mapM (fun i => transformAll i (or_yup previousInstance))
                 (ensureArray jsonObjectOrArray) ;;
      Ok (VArray items)
  else if typeof_object jsonObjectOrArray && negb (isRegExp jsonObjectOrArray)
  then transformObject jsonObjectOrArray (or_yup previousInstance)
  else Ok (lit jsonObjectOrArray).
Proof.
  unfold transformAll at 1. rewrite exec_equation_1. cbv zeta.
  destruct (bool_dec (isArray jsonObjectOrArray) true) as [->|H].
  - destruct (bool_dec (isPrefixNotation jsonObjectOrArray) true) as [->|H];
      [reflexivity|].
    apply not_true_is_false in H. rewrite H.
    now rewrite mapM_in_mapM.
  - apply not_true_is_false in H. rewrite H.
    destruct (bool_dec _ true) as [->|H']; [reflexivity|].
    apply not_true_is_false in H'. now rewrite H'.
Qed.

Lemma transformArray_eq (jsonArray : list node) (previousInstance : val) :
  transformArray jsonArray previousInstance =
  (toReturn <- convertArray (nth 0 jsonArray NUndefined)
                 (or_yup previousInstance) ;;
   foldM (chain_step (or_yup previousInstance)) (tl jsonArray) toReturn).
Proof.
  unfold transformArray. rewrite exec_equation_2. cbv zeta.
  fold (convertArray (nth 0 jsonArray NUndefined) (or_yup previousInstance)).
  destruct (convertArray _ _) as [toReturn|e]; simpl; [|reflexivity].
  rewrite foldM_in_foldM. apply foldM_ext. intros c x. unfold chain_step.
  destruct (bool_dec (isArray x) true) as [->|H]; [reflexivity|].
  apply not_true_is_false in H. now rewrite H.
Qed.

Lemma convertArray_eq (arrayArgument : node) (previousInstance : val) :
  convertArray arrayArgument previousInstance =
  let functionName := nth 0 (ensureArray arrayArgument) NUndefined in
  let argsToPass := tl (ensureArray arrayArgument) in
  if isArray functionName
  then transformArray (ensureArray arrayArgument) VUndefined
  else
    gotFunc <- getYupFunction functionName (or_yup previousInstance) ;;
    argsToPass <- matchesArgument functionName argsToPass ;;
    convertedArguments <-
      transformAll (NArray argsToPass) (or_yup previousInstance) ;;
    callWith gotFunc convertedArguments.
Proof.
  unfold convertArray. rewrite exec_equation_3. cbv zeta.
  destruct (bool_dec _ true) as [->|H]; [reflexivity|].
  apply not_true_is_false in H. rewrite H.
  destruct (getYupFunction _ _) as [gotFunc|e]; simpl; [|reflexivity].
  apply bind_remember.
Qed.

Lemma transformObject_eq (jsonObject : node) (previousInstance : val) :
  transformObject jsonObject previousInstance =
  (entries <- Object_entries jsonObject ;;
   toReturn <- foldM (shape_step (or_yup previousInstance)) entries [] ;;
   Ok (VObject toReturn)).
Proof.
  unfold transformObject at 1. rewrite exec_equation_4. cbv zeta.
  rewrite bind_remember.
  destruct (Object_entries jsonObject) as [entries|e]; simpl; [|reflexivity].
  rewrite foldM_in_foldM.
  erewrite foldM_ext; [reflexivity|].
  intros c [key value]. unfold shape_step. simpl.
  destruct (bool_dec (isArray value) true) as [->|H]; [reflexivity|].
  apply not_true_is_false in H. rewrite H.
  destruct (bool_dec (typeof_object value) true) as [->|H']; [reflexivity|].
  apply not_true_is_false in H'. now rewrite H'.
Qed.


(** *** Strings: [indexOf] against "contains" *)

Lemma substring_prefix_split (s : string) (m : nat) :
  exists post, s = substring 0 m s ++ post.
Proof.
  revert m. induction s as [|c s IH]; intros [|m]; simpl.
  - now exists "".
  - now exists "".
  - now exists (String c s).
  - destruct (IH m) as [post Hpost]. exists post. now rewrite <- Hpost.
Qed.

Lemma substring_split (s : string) (n m : nat) :
  exists pre post, s = pre ++ substring n m s ++ post.
Proof.
  revert n. induction s as [|c s IH]; intros n.
  - exists "", "". now destruct n, m.
  - destruct n as [|n].
    + destruct (substring_prefix_split (String c s) m) as [post Hpost].
      now exists "", post.
    + destruct (IH n) as (pre & post & Hs).
      exists (String c pre), post. simpl. now rewrite <- Hs.
Qed.

Lemma substring_middle (pre sub post : string) :
  substring (String.length pre) (String.length sub) (pre ++ sub ++ post) = sub.
Proof.
  induction pre as [|c pre IH]; simpl; [|exact IH].
  induction sub as [|d sub IHs]; simpl.
  - now destruct post.
  - now rewrite IHs.
Qed.

Lemma indexOf_contains (s sub : string) :
  sub <> "" -> (indexOf s sub <> None <-> contains sub s).
Proof.
  intros Hsub. unfold indexOf, contains. split.
  - destruct (index 0 sub s) as [i|] eqn:Hi; [intros _|congruence].
    apply index_correct1 in Hi.
    destruct (substring_split s i (String.length sub)) as (pre & post & Hs).
    exists pre, post. now rewrite Hi in Hs.
  - intros (pre & post & ->) Hnone.
    apply (index_correct3 _ (String.length pre)) in Hnone; [|assumption|lia].
    apply Hnone, substring_middle.
Qed.

Lemma substring_prefix_rest (s : string) (k : nat) :
  String.length (substring 0 k s) = k ->
  s = substring 0 k s ++ substring k (String.length s - k) s.
Proof.
  revert s. induction k as [|k IH]; intros s Hlen.
  - simpl. destruct s as [|c s]; [reflexivity|].
    simpl. f_equal. clear. induction s as [|d s IHs]; [reflexivity|].
    simpl. now rewrite <- IHs.
  - destruct s as [|c s]; [discriminate|].
    simpl in Hlen |- *. f_equal. apply IH. lia.
Qed.

Lemma substring_rest (s : string) (i k : nat) :
  String.length (substring i k s) = k -> 0 < k ->
  exists pre,
    s = pre ++ substring i k s ++ substring (i + k) (String.length s - (i + k)) s.
Proof.
  revert s. induction i as [|i IH]; intros s Hlen Hk.
  - exists "". simpl. now apply substring_prefix_rest.
  - destruct s as [|c s].
    + destruct k; [lia|discriminate].
    + simpl in Hlen. destruct (IH s Hlen Hk) as [pre Hpre].
      exists (String c pre). simpl. f_equal. exact Hpre.
Qed.

Lemma after_marker_spec (name rest : string) :
  after_marker name = Some rest -> exists pre, name = pre ++ marker ++ rest.
Proof.
  unfold after_marker, indexOf, slice.
  destruct (index 0 marker name) as [i|] eqn:Hi; [|congruence].
  intros [= <-]. apply index_correct1 in Hi.
  destruct (substring_rest name i (String.length marker)) as [pre Hpre].
  - now rewrite Hi.
  - simpl. lia.
  - exists pre. now rewrite Hi in Hpre.
Qed.

(** *** The classifier *)

Lemma isPrefixNotation_cons (functionName : node) (args : list node) :
  isPrefixNotation (NArray (functionName :: args)) =
  if isArray functionName && isPrefixNotation functionName then true
  else
    match functionName with
    | NString s =>
        match indexOf s "yup." with
        | Some _ => true
        | None => false
        end
    | _ => false
    end.
Proof. destruct functionName; reflexivity. Qed.

Lemma isPrefixNotation_Invocation (items : list node) :
  isPrefixNotation (NArray items) = true <-> Invocation items.
Proof.
  split.
  - remember (weight (NArray items)) as n eqn:Hn.
    assert (Hle : weight (NArray items) <= n) by lia. clear Hn.
    revert items Hle. induction n as [|n IH]; intros items Hle.
    { simpl in Hle. lia. }
    destruct items as [|functionName args]; [discriminate|].
    rewrite isPrefixNotation_cons.
    destruct functionName; try discriminate.
    + cbn [isArray andb].
      destruct (indexOf s "yup.") eqn:Hi; [|discriminate].
      intros _. constructor. apply indexOf_contains; [discriminate|].
      unfold marker. congruence.
    + cbn [isArray andb].
      destruct (isPrefixNotation (NArray items)) eqn:Hrec; [|discriminate].
      intros _. constructor. apply IH; [|exact Hrec].
      simpl in Hle |- *. lia.
  - induction 1 as [name args Hc|head args _ IH].
    + apply indexOf_contains in Hc; [|discriminate].
      rewrite isPrefixNotation_cons. cbn [isArray andb].
      unfold marker in Hc. destruct (indexOf name "yup."); congruence.
    + rewrite isPrefixNotation_cons. cbn [isArray andb]. now rewrite IH.
Qed.

(** C3.  A sequence handed to the entry point is compiled as an invocation
    chain exactly when its head is a string containing the marker ["yup."] or
    a sequence whose own head passes the same test; any other sequence is
    compiled element by element into a new sequence, every element against
    the same context. *)
Theorem sequence_classified_by_head (items : list node) (previousInstance : val) :
  (isPrefixNotation (NArray items) = true <-> Invocation items) /\
  transformAll (NArray items) previousInstance =
  if isPrefixNotation (NArray items)
  then transformArray items (or_yup previousInstance)
  else
    compiled <- mapM (fun i => transformAll i (or_yup previousInstance)) items ;;
    Ok (VArray compiled).
Proof.
  split; [apply isPrefixNotation_Invocation|].
  now rewrite transformAll_eq.
Qed.

(** *** The chain compiler *)

Lemma bind_assoc {A B C} (m : res A) (f : A -> res B) (g : B -> res C) :
  bind (bind m f) g = bind m (fun a => bind (f a) g).
Proof. destruct m; reflexivity. Qed.

Lemma foldM_app {A B} (f : B -> A -> res B) (l1 l2 : list A) (b : B) :
  foldM f (l1 ++ l2) b = (c <- foldM f l1 b ;; foldM f l2 c).
Proof.
  revert b. induction l1 as [|x l1 IH]; intros b; simpl; [reflexivity|].
  destruct (f b x); simpl; [apply IH|reflexivity].
Qed.

Lemma transformArray_snoc (pre rest : list node) (previousInstance : val) :
  pre <> [] ->
  transformArray (pre ++ rest) previousInstance =
  (toReturn <- transformArray pre previousInstance ;;
   foldM (chain_step (or_yup previousInstance)) rest toReturn).
Proof.
  intros Hpre. destruct pre as [|first pre]; [congruence|].
  rewrite !transformArray_eq. simpl nth. simpl tl.
  rewrite bind_assoc.
  destruct (convertArray first (or_yup previousInstance)); simpl;
    [apply foldM_app|reflexivity].
Qed.

Lemma strict_eq_string_false (item : node) (s : string) :
  item <> NString s -> strict_eq_string item s = false.
Proof.
  destruct item; simpl; try reflexivity.
  intros H. apply String.eqb_neq. congruence.
Qed.

(** C7.  The chain is a left fold that starts from the compiled first
    element.  An element that is a bare literal, neither a sequence nor the
    shape-continuation marker, is appended to an accumulator that is a list,
    and otherwise paired with the accumulator in a two-element list. *)
Theorem chain_literal_appended
  (pre : list node) (item : node) (post : list node) (previousInstance : val) :
  pre <> [] -> isArray item = false -> item <> shape_continuation ->
  transformArray pre previousInstance =
    (toReturn <- convertArray (nth 0 pre NUndefined) (or_yup previousInstance) ;;
     foldM (chain_step (or_yup previousInstance)) (tl pre) toReturn) /\
  transformArray (pre ++ item :: post) previousInstance =
    (toReturn <- transformArray pre previousInstance ;;
     foldM (chain_step (or_yup previousInstance)) post
       (append_literal toReturn item)).
Proof.
  intros Hpre Harr Hobj. split; [apply transformArray_eq|].
  rewrite transformArray_snoc by assumption.
  destruct (transformArray pre previousInstance) as [toReturn|e];
    [|reflexivity].
  cbn [bind foldM]. unfold chain_step at 1. rewrite Harr.
  rewrite (strict_eq_string_false _ _ Hobj).
  now destruct toReturn.
Qed.

(** C8.  An element equal to the shape-continuation marker makes the chain
    recompute its accumulator with the shape compiler applied to that
    element; the accumulator built so far is dropped. *)
Theorem chain_shape_continuation
  (pre post : list node) (previousInstance : val) :
  pre <> [] ->
  transformArray (pre ++ shape_continuation :: post) previousInstance =
    (_ <- transformArray pre previousInstance ;;
     toReturn <- transformObject shape_continuation (or_yup previousInstance) ;;
     foldM (chain_step (or_yup previousInstance)) post toReturn) /\
  transformObject shape_continuation (or_yup previousInstance) =
    Ok (VObject [("0", VString "o"); ("1", VString "b"); ("2", VString "j");
                 ("3", VString "e"); ("4", VString "c"); ("5", VString "t")]).
Proof.
  intros Hpre. split.
  - rewrite transformArray_snoc by assumption.
    destruct (transformArray pre previousInstance); reflexivity.
  - rewrite transformObject_eq. reflexivity.
Qed.

(** *** The invocation compiler *)

Lemma no_truthy_all_falsy (items : list val) :
  Nat.ltb (List.length (filter value_truthy items)) 1 = all_falsy items.
Proof.
  induction items as [|v items IH]; [reflexivity|].
  simpl. destruct (value_truthy v); [reflexivity|exact IH].
Qed.

(** C6.  Once the name is resolved and the raw arguments are compiled, the
    builder is called with no argument when the compiled arguments are a
    list of falsy elements, with the elements of the list when one of them
    is truthy, and with the compiled value itself when it is not a list. *)
Theorem builder_call_policy
  (arrayArgument : node) (previousInstance : val)
  (gotFunc : fn) (argsToPass : list node) (compiled : val) :
  isArray (nth 0 (ensureArray arrayArgument) NUndefined) = false ->
  getYupFunction (nth 0 (ensureArray arrayArgument) NUndefined)
    (or_yup previousInstance) = Ok gotFunc ->
  matchesArgument (nth 0 (ensureArray arrayArgument) NUndefined)
    (tl (ensureArray arrayArgument)) = Ok argsToPass ->
  transformAll (NArray argsToPass) (or_yup previousInstance) = Ok compiled ->
  convertArray arrayArgument previousInstance =
  match compiled with
  | VArray items =>
      if all_falsy items then invoke gotFunc [] else invoke gotFunc items
  | single => invoke gotFunc [single]
  end.
Proof.
  intros Hname Hfun Hargs Hcompiled.
  rewrite convertArray_eq. cbv zeta.
  rewrite Hname, Hfun. cbn [bind]. rewrite Hargs. cbn [bind].
  rewrite Hcompiled. cbn [bind]. unfold callWith.
  destruct compiled; try reflexivity.
  now rewrite no_truthy_all_falsy.
Qed.

Lemma or_yup_idem (previousInstance : val) :
  or_yup (or_yup previousInstance) = or_yup previousInstance.
Proof. now destruct previousInstance. Qed.

(** C10.  An invocation whose name slot is a sequence is compiled as a chain
    of its own: the context it was given is dropped, the first element is
    compiled against the library root, and the result does not depend on the
    context. *)
Theorem nested_name_restarts_chain
  (head args : list node) (previousInstance otherInstance : val) :
  convertArray (NArray (NArray head :: args)) previousInstance =
    (toReturn <- convertArray (NArray head) (VHost yup) ;;
     foldM (chain_step (VHost yup)) args toReturn) /\
  convertArray (NArray (NArray head :: args)) previousInstance =
    transformArray (NArray head :: args) (VHost yup) /\
  convertArray (NArray (NArray head :: args)) previousInstance =
    convertArray (NArray (NArray head :: args)) otherInstance.
Proof.
  assert (H : forall p, convertArray (NArray (NArray head :: args)) p =
                        transformArray (NArray head :: args) (VHost yup)).
  { intros p. rewrite convertArray_eq. cbv zeta.
    cbn [ensureArray nth isArray].
    rewrite (transformArray_eq _ VUndefined).
    rewrite (transformArray_eq _ (VHost yup)). reflexivity. }
  split; [|split].
  - rewrite H. apply transformArray_eq.
  - apply H.
  - rewrite (H previousInstance). symmetry. apply H.
Qed.

(** *** Errors *)

Lemma mapM_in_throw {A B} (l : list A) (f : forall x, In x l -> res B) e :
  mapM_in l f = Throw e -> exists x H, f x H = Throw e.
Proof.
  induction l as [|x l IH]; simpl; [discriminate|].
  destruct (f x _) eqn:Hx; simpl; [|intros [= <-]; eauto].
  destruct (mapM_in l _) eqn:Hl; simpl; [discriminate|].
  intros [= <-]. destruct (IH _ Hl) as (y & Hy & Hf). eauto.
Qed.

Lemma foldM_in_throw {A B} (l : list A)
  (f : B -> forall x, In x l -> res B) (b : B) e :
  foldM_in l f b = Throw e -> exists c x H, f c x H = Throw e.
Proof.
  revert b. induction l as [|x l IH]; intros b; simpl; [discriminate|].
  destruct (f b x _) eqn:Hx; simpl; [|intros [= <-]; eauto].
  intros Hl. destruct (IH _ _ Hl) as (c & y & Hy & Hf). eauto.
Qed.

Lemma getYupFunction_throw (functionName : node) (previousInstance : val) e :
  getYupFunction functionName previousInstance = Throw e ->
  is_wrapper e = false.
Proof.
  unfold getYupFunction, getSubString, member.
  repeat match goal with
         | |- context [match ?x with _ => _ end] => destruct x; simpl
         | |- context [if ?x then _ else _] => destruct x; simpl
         end;
    try discriminate; intros [= <-]; reflexivity.
Qed.

Lemma matchesArgument_throw (functionName : node) (args : list node) e :
  matchesArgument functionName args = Throw e -> is_wrapper e = false.
Proof.
  unfold matchesArgument.
  repeat match goal with
         | |- context [match ?x with _ => _ end] => destruct x; simpl
         | |- context [if ?x then _ else _] => destruct x; simpl
         end;
    try discriminate; intros [= <-]; reflexivity.
Qed.

Lemma callWith_throw (gotFunc : fn) (compiled : val) e :
  callWith gotFunc compiled = Throw e -> is_wrapper e = false.
Proof.
  unfold callWith, invoke.
  repeat match goal with
         | |- context [match ?x with _ => _ end] => destruct x; simpl
         | |- context [if ?x then _ else _] => destruct x; simpl
         end;
    try discriminate; intros [= <-]; reflexivity.
Qed.

(** No function of the compiler creates the error of [transform]. *)
Lemma exec_never_wraps (c : call) e :
  exec c = Throw e -> is_wrapper e = false.
Proof.
  remember (call_weight c) as n eqn:Hn. revert c Hn e.
  induction n as [n IH] using lt_wf_ind. intros c -> e.
  assert (IHc : forall c', call_weight c' < call_weight c ->
                forall e', exec c' = Throw e' -> is_wrapper e' = false)
    by (intros c' Hlt; exact (IH _ Hlt c' eq_refl)).
  clear IH. destruct c as [x p|l p|x p|x p].
  - (* transformAll *)
    rewrite exec_equation_1. cbv zeta.
    destruct (bool_dec _ true) as [Harr|Harr].
    + destruct (bool_dec _ true) as [Hpre|Hpre].
      * apply IHc. now apply smaller_all_chain.
      * destruct (mapM_in _ _) eqn:Hmap; simpl; [discriminate|].
        intros [= <-]. apply mapM_in_throw in Hmap.
        destruct Hmap as (i & Hi & Hthrow). revert Hthrow.
        apply IHc. now apply (smaller_all_item x).
    + destruct (bool_dec _ true) as [Hobj|Hobj]; [|discriminate].
      apply IHc. now apply smaller_all_shape.
  - (* transformArray *)
    rewrite exec_equation_2. cbv zeta.
    destruct (exec (ConvertArray _ _)) eqn:Hfirst; simpl.
    2:{ intros [= <-]. revert Hfirst. apply IHc, smaller_chain_first. }
    intros Hfold. apply foldM_in_throw in Hfold.
    destruct Hfold as (toReturn & item & Hitem & Hstep). revert Hstep.
    destruct (bool_dec _ true) as [Harr|Harr].
    { apply IHc. now apply smaller_chain_item. }
    destruct (strict_eq_string item "object") eqn:Hobj.
    { apply IHc. now apply smaller_chain_shape. }
    destruct toReturn; discriminate.
  - (* convertArray *)
    rewrite exec_equation_3. cbv zeta.
    destruct (bool_dec _ true) as [Harr|Harr].
    { apply IHc. now apply smaller_invocation_chain. }
    destruct (getYupFunction _ _) as [gotFunc|e'] eqn:Hfun; simpl;
      [|intros [= <-]; eapply getYupFunction_throw; eassumption].
    rewrite bind_remember.
    destruct (matchesArgument _ _) as [args|e'] eqn:Hargs; simpl;
      [|intros [= <-]; eapply matchesArgument_throw; eassumption].
    destruct (exec (TransformAll _ _)) as [compiled|e'] eqn:Hall; simpl.
    2:{ intros [= <-]. revert Hall. apply IHc.
        now apply smaller_invocation_args. }
    apply (callWith_throw gotFunc compiled).
  - (* transformObject *)
    rewrite exec_equation_4. cbv zeta. rewrite bind_remember.
    destruct (Object_entries x) as [entries|e'] eqn:Hentries; simpl.
    2:{ intros [= <-]. destruct x; simpl in Hentries;
          try discriminate; now injection Hentries as <-. }
    destruct (foldM_in _ _ _) eqn:Hfold; simpl; [discriminate|].
    intros [= <-]. apply foldM_in_throw in Hfold.
    destruct Hfold as (toReturn & entry & Hentry & Hstep).
    destruct (bool_dec _ true) as [Harr|Harr].
    + destruct (exec (TransformArray _ _)) eqn:Hv; simpl in Hstep;
        [discriminate|].
      injection Hstep as <-. revert Hv. apply IHc.
      now apply (smaller_shape_chain x entries).
    + destruct (bool_dec _ true) as [Hobj|Hobj]; [|discriminate].
      destruct (exec (TransformObject _ _)) eqn:Hv; simpl in Hstep;
        [discriminate|].
      injection Hstep as <-. revert Hv. apply IHc.
      now apply (smaller_shape_shape x entries).
Qed.

Lemma transform_eq (x : node) :
  transform x =
  match transformAll (compiled_input x) VUndefined with
  | Ok v => Ok v
  | Throw (ValidationError message) =>
      Throw (Error (wrapped_message x message))
  | Throw error => Throw error
  end.
Proof.
  unfold transform, compiled_input, explicit_chain, wrapped_message.
  destruct (isArray x); reflexivity.
Qed.

(** *** Errors are not caught *)

Lemma getSubString_string (name : string) :
  getSubString (NString name) marker =
  Ok (match after_marker name with
      | Some rest => Some (NString rest)
      | None => None
      end).
Proof.
  unfold getSubString, after_marker. cbn [truthy negb].
  destruct (String.eqb name "") eqn:Hname; cbn [negb].
  - apply String.eqb_eq in Hname. subst name. reflexivity.
  - destruct (indexOf name marker); reflexivity.
Qed.

Lemma propagate_resolver_substring (name : node) (p : val) e :
  isArray name = false -> getCustomValidator name = None ->
  getSubString name "yup." = Throw e ->
  getYupFunction name p = Throw e.
Proof.
  intros Hname Hcustom Hsub. unfold getYupFunction.
  destruct name; try discriminate Hname; rewrite Hcustom, Hsub; reflexivity.
Qed.

Lemma propagate_resolver_member (name rest : string) (p : val) e :
  getCustomValidator (NString name) = None ->
  after_marker name = Some rest -> rest <> "" ->
  member (or_yup p) rest = Throw e ->
  getYupFunction (NString name) p = Throw e.
Proof.
  intros Hcustom Hrest Hne Hmember. unfold getYupFunction. rewrite Hcustom.
  fold marker. rewrite getSubString_string, Hrest. cbn [bind truthy ToString].
  apply String.eqb_neq in Hne. rewrite Hne. cbn [negb].
  now rewrite Hmember.
Qed.

Lemma propagate_invocation_chain (y : node) (p : val) e :
  isArray (nth 0 (ensureArray y) NUndefined) = true ->
  transformArray (ensureArray y) VUndefined = Throw e ->
  convertArray y p = Throw e.
Proof.
  intros Hname H. rewrite convertArray_eq. cbv zeta. now rewrite Hname.
Qed.

Lemma propagate_invocation_resolution (y : node) (p : val) e :
  isArray (nth 0 (ensureArray y) NUndefined) = false ->
  getYupFunction (nth 0 (ensureArray y) NUndefined) (or_yup p) = Throw e ->
  convertArray y p = Throw e.
Proof.
  intros Hname H. rewrite convertArray_eq. cbv zeta. now rewrite Hname, H.
Qed.

Lemma propagate_invocation_matches (y : node) (p : val) (gotFunc : fn) e :
  isArray (nth 0 (ensureArray y) NUndefined) = false ->
  getYupFunction (nth 0 (ensureArray y) NUndefined) (or_yup p) = Ok gotFunc ->
  matchesArgument (nth 0 (ensureArray y) NUndefined) (tl (ensureArray y))
  = Throw e ->
  convertArray y p = Throw e.
Proof.
  intros Hname Hfun H. rewrite convertArray_eq. cbv zeta.
  rewrite Hname, Hfun. cbn [bind]. now rewrite H.
Qed.

Lemma propagate_invocation_arguments
  (y : node) (p : val) (gotFunc : fn) (args : list node) e :
  isArray (nth 0 (ensureArray y) NUndefined) = false ->
  getYupFunction (nth 0 (ensureArray y) NUndefined) (or_yup p) = Ok gotFunc ->
  matchesArgument (nth 0 (ensureArray y) NUndefined) (tl (ensureArray y))
  = Ok args ->
  transformAll (NArray args) (or_yup p) = Throw e ->
  convertArray y p = Throw e.
Proof.
  intros Hname Hfun Hargs H. rewrite convertArray_eq. cbv zeta.
  rewrite Hname, Hfun. cbn [bind]. rewrite Hargs. cbn [bind]. now rewrite H.
Qed.

Lemma propagate_invocation_builder
  (y : node) (p : val) (gotFunc : fn) (args : list node) (compiled : val)
  (thrown : host_exn) :
  isArray (nth 0 (ensureArray y) NUndefined) = false ->
  getYupFunction (nth 0 (ensureArray y) NUndefined) (or_yup p) = Ok gotFunc ->
  matchesArgument (nth 0 (ensureArray y) NUndefined) (tl (ensureArray y))
  = Ok args ->
  transformAll (NArray args) (or_yup p) = Ok compiled ->
  gotFunc (passed_arguments compiled) = inr thrown ->
  convertArray y p = Throw (Thrown thrown).
Proof.
  intros Hname Hfun Hargs Hall Hcall. rewrite convertArray_eq. cbv zeta.
  rewrite Hname, Hfun. cbn [bind]. rewrite Hargs. cbn [bind].
  rewrite Hall. cbn [bind]. unfold callWith, passed_arguments in *.
  destruct compiled; try (unfold invoke; now rewrite Hcall).
  rewrite no_truthy_all_falsy.
  destruct (all_falsy items); unfold invoke; now rewrite Hcall.
Qed.

Lemma propagate_chain_first (l : list node) (p : val) e :
  convertArray (nth 0 l NUndefined) (or_yup p) = Throw e ->
  transformArray l p = Throw e.
Proof. intros H. now rewrite transformArray_eq, H. Qed.

Lemma propagate_chain_step
  (pre : list node) (item : node) (post : list node) (p acc : val) e :
  pre <> [] -> transformArray pre p = Ok acc ->
  chain_step (or_yup p) acc item = Throw e ->
  transformArray (pre ++ item :: post) p = Throw e.
Proof.
  intros Hpre Hacc Hstep. rewrite transformArray_snoc by assumption.
  rewrite Hacc. cbn [bind foldM]. now rewrite Hstep.
Qed.

Lemma propagate_chain_earlier (pre rest : list node) (p : val) e :
  pre <> [] -> transformArray pre p = Throw e ->
  transformArray (pre ++ rest) p = Throw e.
Proof.
  intros Hpre H. rewrite transformArray_snoc by assumption. now rewrite H.
Qed.

Lemma propagate_shape_entries (x : node) (p : val) e :
  Object_entries x = Throw e -> transformObject x p = Throw e.
Proof. intros H. now rewrite transformObject_eq, H. Qed.

Lemma propagate_shape_step
  (y : node) (before : list (string * node)) (entry : string * node)
  (after : list (string * node)) (p w : val) e :
  Object_entries y = Ok (before ++ entry :: after)%list ->
  transformObject (NObject before) p = Ok w ->
  (forall o, shape_step (or_yup p) o entry = Throw e) ->
  transformObject y p = Throw e.
Proof.
  intros Hy. rewrite (transformObject_eq y), Hy.
  rewrite (transformObject_eq (NObject before)).
  cbn [Object_entries own_entries bind].
  intros Hbefore Hstep. rewrite foldM_app.
  destruct (foldM _ before []) as [o|]; cbn [bind] in *; [|discriminate].
  cbn [foldM]. now rewrite Hstep.
Qed.

Lemma propagate_shape_earlier
  (y : node) (before rest : list (string * node)) (p : val) e :
  Object_entries y = Ok (before ++ rest)%list ->
  transformObject (NObject before) p = Throw e ->
  transformObject y p = Throw e.
Proof.
  intros Hy. rewrite (transformObject_eq y), Hy.
  rewrite (transformObject_eq (NObject before)).
  cbn [Object_entries own_entries bind].
  intros Hbefore. rewrite foldM_app.
  destruct (foldM _ before []) as [o|e']; cbn [bind] in *; [discriminate|].
  exact Hbefore.
Qed.

Lemma mapM_of_Forall2 {A B} (f : A -> res B) (l : list A) (ys : list B) :
  Forall2 (fun x y => f x = Ok y) l ys -> mapM f l = Ok ys.
Proof.
  induction 1 as [|x y l ys Hx _ IH]; [reflexivity|].
  cbn [mapM]. now rewrite Hx, IH.
Qed.

Lemma mapM_stops {A B} (f : A -> res B) (before : list A) (x : A)
  (after : list A) (ys : list B) e :
  mapM f before = Ok ys -> f x = Throw e ->
  mapM f (before ++ x :: after) = Throw e.
Proof.
  revert ys. induction before as [|b before IH]; intros ys; cbn [app mapM].
  - intros _ Hx. now rewrite Hx.
  - destruct (f b); cbn [bind]; [|discriminate].
    destruct (mapM f before) as [zs|]; cbn [bind]; [|discriminate].
    intros _ Hx. now rewrite (IH zs eq_refl Hx).
Qed.

Lemma propagate_list_element
  (before : list node) (i : node) (after : list node)
  (p : val) (compiled : list val) e :
  isPrefixNotation (NArray (before ++ i :: after)) = false ->
  Forall2 (fun j w => transformAll j (or_yup p) = Ok w) before compiled ->
  transformAll i (or_yup p) = Throw e ->
  transformAll (NArray (before ++ i :: after)) p = Throw e.
Proof.
  intros Hplain Hbefore Hi. rewrite transformAll_eq.
  cbn [isArray ensureArray]. rewrite Hplain.
  apply mapM_of_Forall2 in Hbefore.
  now rewrite (mapM_stops _ before i after compiled e Hbefore Hi).
Qed.

Lemma propagate_all_chain (items : list node) (p : val) e :
  isPrefixNotation (NArray items) = true ->
  transformArray items (or_yup p) = Throw e ->
  transformAll (NArray items) p = Throw e.
Proof.
  intros Hpre H. rewrite transformAll_eq. cbn [isArray ensureArray].
  now rewrite Hpre.
Qed.

Lemma propagate_all_shape (x : node) (p : val) e :
  isArray x = false -> typeof_object x && negb (isRegExp x) = true ->
  transformObject x (or_yup p) = Throw e ->
  transformAll x p = Throw e.
Proof.
  intros Harr Hobj H. now rewrite transformAll_eq, Harr, Hobj.
Qed.

(** C2.  [transform] turns a name-resolution or argument-shape error raised
    during compilation into a top-level error whose message is made of the
    serialized input and of the message of the error; an error of another
    kind leaves [transform] as it was raised.  The compilers inside create no
    such top-level error and catch nothing: an error raised at any place
    where one of them calls something is the error that it throws.  These
    places are, in the name resolver, the search of the marker and the
    reading of the member; in the invocation compiler, the chain compiled
    for a nested name, the resolution of the name, the check of the argument
    of [matches], the compilation of the arguments and the call of the
    builder; in the chain compiler, the first element, every later element
    and every element before it; in the shape compiler, the listing of the
    entries, the value of every key, be it a list or a nested mapping, and
    every key before it, whatever the object whose entries are listed; in
    the entry point, the chain, every element of a plain list and the
    mapping. *)
Theorem transform_wraps_validation_errors (x : node) :
  (forall message,
      transformAll (compiled_input x) VUndefined
      = Throw (ValidationError message) ->
      transform x
      = Throw (Error ("Could not validate " ++ JSON_stringify x
                        ++ newline ++ message))) /\
  (forall e,
      transformAll (compiled_input x) VUndefined = Throw e ->
      instanceof_ValidationError e = false ->
      transform x = Throw e) /\
  (forall y l p e,
      transformAll y p = Throw e \/ transformArray l p = Throw e \/
      convertArray y p = Throw e \/ transformObject y p = Throw e ->
      is_wrapper e = false) /\
  (forall name args p e,
      isArray name = false ->
      getYupFunction name (or_yup p) = Throw e ->
      convertArray (NArray (name :: args)) p = Throw e) /\
  (forall name args p gotFunc e,
      isArray name = false ->
      getYupFunction name (or_yup p) = Ok gotFunc ->
      matchesArgument name args = Throw e ->
      convertArray (NArray (name :: args)) p = Throw e) /\
  (forall first rest p e,
      convertArray first (or_yup p) = Throw e ->
      transformArray (first :: rest) p = Throw e) /\
  (forall key l rest p e,
      transformArray l (or_yup p) = Throw e ->
      transformObject (NObject ((key, NArray l) :: rest)) p = Throw e) /\
  (forall name p e,
      isArray name = false -> getCustomValidator name = None ->
      getSubString name "yup." = Throw e ->
      getYupFunction name p = Throw e) /\
  (forall name rest p e,
      getCustomValidator (NString name) = None ->
      after_marker name = Some rest -> rest <> "" ->
      member (or_yup p) rest = Throw e ->
      getYupFunction (NString name) p = Throw e) /\
  (forall y p e,
      isArray (nth 0 (ensureArray y) NUndefined) = true ->
      transformArray (ensureArray y) VUndefined = Throw e ->
      convertArray y p = Throw e) /\
  (forall y p e,
      isArray (nth 0 (ensureArray y) NUndefined) = false ->
      getYupFunction (nth 0 (ensureArray y) NUndefined) (or_yup p) = Throw e ->
      convertArray y p = Throw e) /\
  (forall y p gotFunc e,
      isArray (nth 0 (ensureArray y) NUndefined) = false ->
      getYupFunction (nth 0 (ensureArray y) NUndefined) (or_yup p)
      = Ok gotFunc ->
      matchesArgument (nth 0 (ensureArray y) NUndefined) (tl (ensureArray y))
      = Throw e ->
      convertArray y p = Throw e) /\
  (forall y p gotFunc args e,
      isArray (nth 0 (ensureArray y) NUndefined) = false ->
      getYupFunction (nth 0 (ensureArray y) NUndefined) (or_yup p)
      = Ok gotFunc ->
      matchesArgument (nth 0 (ensureArray y) NUndefined) (tl (ensureArray y))
      = Ok args ->
      transformAll (NArray args) (or_yup p) = Throw e ->
      convertArray y p = Throw e) /\
  (forall y p gotFunc args compiled thrown,
      isArray (nth 0 (ensureArray y) NUndefined) = false ->
      getYupFunction (nth 0 (ensureArray y) NUndefined) (or_yup p)
      = Ok gotFunc ->
      matchesArgument (nth 0 (ensureArray y) NUndefined) (tl (ensureArray y))
      = Ok args ->
      transformAll (NArray args) (or_yup p) = Ok compiled ->
      gotFunc (passed_arguments compiled) = inr thrown ->
      convertArray y p = Throw (Thrown thrown)) /\
  (forall l p e,
      convertArray (nth 0 l NUndefined) (or_yup p) = Throw e ->
      transformArray l p = Throw e) /\
  (forall pre item post p acc e,
      pre <> [] -> transformArray pre p = Ok acc ->
      isArray item = true -> convertArray item acc = Throw e ->
      transformArray (pre ++ item :: post) p = Throw e) /\
  (forall pre post p acc e,
      pre <> [] -> transformArray pre p = Ok acc ->
      transformObject shape_continuation (or_yup p) = Throw e ->
      transformArray (pre ++ shape_continuation :: post) p = Throw e) /\
  (forall pre rest p e,
      pre <> [] -> transformArray pre p = Throw e ->
      transformArray (pre ++ rest) p = Throw e) /\
  (forall y p e,
      Object_entries y = Throw e -> transformObject y p = Throw e) /\
  (forall y before key l after p w e,
      Object_entries y = Ok (before ++ (key, NArray l) :: after)%list ->
      transformObject (NObject before) p = Ok w ->
      transformArray l (or_yup p) = Throw e ->
      transformObject y p = Throw e) /\
  (forall y before key nested after p w e,
      Object_entries y = Ok (before ++ (key, nested) :: after)%list ->
      transformObject (NObject before) p = Ok w ->
      isArray nested = false -> typeof_object nested = true ->
      transformObject nested (or_yup p) = Throw e ->
      transformObject y p = Throw e) /\
  (forall y before rest p e,
      Object_entries y = Ok (before ++ rest)%list ->
      transformObject (NObject before) p = Throw e ->
      transformObject y p = Throw e) /\
  (forall items p e,
      isPrefixNotation (NArray items) = true ->
      transformArray items (or_yup p) = Throw e ->
      transformAll (NArray items) p = Throw e) /\
  (forall before i after p compiled e,
      isPrefixNotation (NArray (before ++ i :: after)) = false ->
      Forall2 (fun j w => transformAll j (or_yup p) = Ok w) before compiled ->
      transformAll i (or_yup p) = Throw e ->
      transformAll (NArray (before ++ i :: after)) p = Throw e) /\
  (forall y p e,
      isArray y = false -> typeof_object y && negb (isRegExp y) = true ->
      transformObject y (or_yup p) = Throw e ->
      transformAll y p = Throw e).
Proof.
  repeat apply conj.
  - intros message H. rewrite transform_eq, H. reflexivity.
  - intros e H He. rewrite transform_eq, H. now destruct e.
  - intros y l p e [H|[H|[H|H]]]; revert H; apply exec_never_wraps.
  - intros name args p e Hname H.
    now apply propagate_invocation_resolution.
  - intros name args p gotFunc e Hname Hfun H.
    now apply (propagate_invocation_matches (NArray (name :: args)) p gotFunc).
  - intros first rest p e H. now apply propagate_chain_first.
  - intros key l rest p e H. rewrite transformObject_eq.
    cbn [Object_entries own_entries bind foldM shape_step isArray ensureArray].
    now rewrite H.
  - intros name p e. apply propagate_resolver_substring.
  - intros name rest p e. apply propagate_resolver_member.
  - intros y p e. apply propagate_invocation_chain.
  - intros y p e. apply propagate_invocation_resolution.
  - intros y p gotFunc e. apply propagate_invocation_matches.
  - intros y p gotFunc args e. apply propagate_invocation_arguments.
  - intros y p gotFunc args compiled thrown.
    apply propagate_invocation_builder.
  - intros l p e. apply propagate_chain_first.
  - intros pre item post p acc e Hpre Hacc Hitem H.
    apply (propagate_chain_step pre item post p acc e Hpre Hacc).
    unfold chain_step. now rewrite Hitem.
  - intros pre post p acc e Hpre Hacc H.
    apply (propagate_chain_step pre _ post p acc e Hpre Hacc).
    exact H.
  - intros pre rest p e. apply propagate_chain_earlier.
  - intros y p e. apply propagate_shape_entries.
  - intros y before key l after p w e Hy Hbefore H.
    apply (propagate_shape_step y before _ after p w e Hy Hbefore).
    intros o. unfold shape_step. cbn [isArray ensureArray]. now rewrite H.
  - intros y before key nested after p w e Hy Hbefore Harr Hobj H.
    apply (propagate_shape_step y before _ after p w e Hy Hbefore).
    intros o. unfold shape_step. now rewrite Harr, Hobj, H.
  - intros y before rest p e. apply propagate_shape_earlier.
  - intros items p e. apply propagate_all_chain.
  - intros before i after p compiled e. apply propagate_list_element.
  - intros y p e. apply propagate_all_shape.
Qed.

(** *** Name resolution *)


(** *** The argument of [matches] *)

Lemma transformAll_scalar (x : node) (previousInstance : val) :
  isArray x = false -> typeof_object x && negb (isRegExp x) = false ->
  transformAll x previousInstance = Ok (lit x).
Proof. intros Harr Hobj. now rewrite transformAll_eq, Harr, Hobj. Qed.

(** C5, amended.  For an invocation whose name is exactly ["yup.matches"]
    and resolves to a builder: a first argument that is a string is replaced
    by the regular expression built from it before the builder is called,
    when the engine accepts the pattern, and the construction throws its
    [SyntaxError] otherwise; a first argument that is neither an object nor a
    string, or that is missing, makes compilation fail with the
    argument-shape error. *)
Theorem matches_argument_converted (previousInstance : val) (gotFunc : fn) :
  getYupFunction (NString "yup.matches") (or_yup previousInstance) = Ok gotFunc ->
  (forall pattern rest,
      RegExp_valid pattern = true ->
      convertArray (NArray (NString "yup.matches" :: NString pattern :: rest))
        previousInstance =
      (compiled <- mapM (fun i => transformAll i (or_yup previousInstance)) rest ;;
       invoke gotFunc (VRegExp pattern "" :: compiled))) /\
  (forall pattern rest,
      RegExp_valid pattern = false ->
      convertArray (NArray (NString "yup.matches" :: NString pattern :: rest))
        previousInstance = Throw (SyntaxError pattern)) /\
  (forall first rest,
      typeof_object first = false -> typeof_string first = false ->
      convertArray (NArray (NString "yup.matches" :: first :: rest))
        previousInstance = Throw (ValidationError matches_message)) /\
  convertArray (NArray [NString "yup.matches"]) previousInstance
  = Throw (ValidationError matches_message).
Proof.
  intros Hfun. repeat apply conj.
  - intros pattern rest Hvalid. rewrite convertArray_eq. cbv zeta.
    cbn [ensureArray nth tl isArray]. rewrite Hfun. cbn [bind].
    unfold matchesArgument. cbn [strict_eq_string nth typeof_object negb].
    replace ("yup.matches" =? "yup.matches") with true by reflexivity.
    cbn [andb]. rewrite Hvalid. cbn [bind tl].
    rewrite transformAll_eq. cbn [isArray ensureArray mapM].
    rewrite isPrefixNotation_cons. cbn [isArray andb].
    rewrite or_yup_idem.
    rewrite (transformAll_scalar (NRegExp pattern "")) by reflexivity.
    cbn [bind lit].
    destruct (mapM _ rest) as [compiled|e]; reflexivity.
  - intros pattern rest Hvalid. rewrite convertArray_eq. cbv zeta.
    cbn [ensureArray nth tl isArray]. rewrite Hfun. cbn [bind].
    unfold matchesArgument. cbn [strict_eq_string nth typeof_object negb].
    replace ("yup.matches" =? "yup.matches") with true by reflexivity.
    cbn [andb]. now rewrite Hvalid.
  - intros first rest Hobj Hstr. rewrite convertArray_eq. cbv zeta.
    cbn [ensureArray nth tl isArray]. rewrite Hfun. cbn [bind].
    unfold matchesArgument. cbn [strict_eq_string nth].
    replace ("yup.matches" =? "yup.matches") with true by reflexivity.
    rewrite Hobj. cbn [andb negb].
    destruct first; try reflexivity; discriminate.
  - rewrite convertArray_eq. cbv zeta.
    cbn [ensureArray nth tl isArray]. rewrite Hfun. reflexivity.
Qed.

(** *** Scalars in a mapping *)


(** *** The shortcut for a bare mapping *)

(** C1, amended.  For an input that is not a sequence, [transform] compiles
    the explicit chain [object -> required -> shape(input)]: it returns the
    validator that [transform] returns on that chain, fails when [transform]
    fails on it, and with the same error when the error is not a
    name-resolution or argument-shape error.  Such an error is wrapped with
    the same underlying message in both cases, each message carrying the
    serialization of the input that its call received. *)
Theorem bare_node_compiles_explicit_chain (x : node) :
  isArray x = false ->
  (forall v, transform x = Ok v <-> transform (explicit_chain x) = Ok v) /\
  (forall e, is_wrapper e = false ->
             (transform x = Throw e <-> transform (explicit_chain x) = Throw e)) /\
  (forall message,
      transformAll (explicit_chain x) VUndefined
      = Throw (ValidationError message) ->
      transform x = Throw (Error (wrapped_message x message)) /\
      transform (explicit_chain x)
      = Throw (Error (wrapped_message (explicit_chain x) message))).
Proof.
  intros Harr. rewrite !transform_eq. unfold compiled_input. rewrite Harr.
  cbn [explicit_chain isArray].
  split; [|split].
  - intros v. destruct (transformAll _ VUndefined) as [w|[]];
      split; intros H; try exact H; discriminate H.
  - intros e He. destruct (transformAll _ VUndefined) as [w|[]];
      split; intros H; try exact H; injection H as <-; discriminate He.
  - intros message H. rewrite H. split; reflexivity.
Qed.

End Properties.

(** ** The converter at work on the demo library *)

Example number_chain_compiles :
  transform (L := demo) number_chain
  = Ok (VHost (Schema "number"
                 [("required", []); ("min", ["50"]); ("max", ["500"])])).
Proof. vm_compute. reflexivity. Qed.

Example empty_array_is_unresolved :
  transformArray (L := demo) [] VUndefined
  = Throw (ValidationError "Could not find validator undefined").
Proof. vm_compute. reflexivity. Qed.

Example reference_with_message :
  transformArray (L := demo)
    [NArray [NString "yup.string"]; NString "first"; NString "second"] VUndefined
  = Ok (VArray [string_schema; VString "first"; VString "second"]).
Proof. vm_compute. reflexivity. Qed.

(** C1, as stated, fails on a mapping that does not compile: the two calls
    raise errors with different messages, each carrying the serialization of
    its own input. *)
Lemma bare_mapping_error_differs :
  transform (L := demo) bogus_shape
  = Throw (Error (wrapped_message bogus_shape "Could not find validator bogus")) /\
  transform (L := demo) (explicit_chain bogus_shape)
  = Throw (Error (wrapped_message (explicit_chain bogus_shape)
                    "Could not find validator bogus")) /\
  transform (L := demo) bogus_shape
  <> transform (L := demo) (explicit_chain bogus_shape).
Proof.
  split; [|split]; vm_compute; [reflexivity|reflexivity|].
  intros H. discriminate H.
Qed.

Lemma bare_node_compiles_explicit_chain_witness :
  isArray bogus_shape = false /\
  (forall v, transform (L := demo) bogus_shape = Ok v
             <-> transform (L := demo) (explicit_chain bogus_shape) = Ok v).
Proof.
  split; [reflexivity|].
  apply (bare_node_compiles_explicit_chain (L := demo) bogus_shape).
  reflexivity.
Defined.



(** C5, as stated, fails on a name that has more than the marker before
    [matches]: the bare primitive is [matches], the first argument is a
    number, and the builder is called with the number. *)
Lemma marker_inside_name_not_converted :
  after_marker "xyup.matches" = Some "matches" /\
  convertArray (L := demo) (NArray [NString "xyup.matches"; NNumber 5])
    string_schema
  = Ok (VHost (Schema "string" [("matches", ["5"])])).
Proof. split; vm_compute; reflexivity. Qed.

Lemma matches_argument_converted_witness :
  getYupFunction (L := demo) (NString "yup.matches")
    (or_yup (L := demo) string_schema) = Ok string_matches /\
  convertArray (L := demo) (NArray [NString "yup.matches"; NNumber 5])
    string_schema = Throw (ValidationError matches_message).
Proof.
  assert (H : getYupFunction (L := demo) (NString "yup.matches")
                (or_yup (L := demo) string_schema) = Ok string_matches)
    by reflexivity.
  split; [exact H|].
  apply (matches_argument_converted (L := demo) string_schema string_matches H);
    reflexivity.
Defined.

Lemma chain_literal_appended_witness :
  [NArray [NString "yup.string"]] <> [] /\
  isArray (NString "first") = false /\
  NString "first" <> shape_continuation /\
  transformArray (L := demo)
    ([NArray [NString "yup.string"]] ++ NString "first" :: [NString "second"])
    VUndefined
  = (toReturn <- transformArray (L := demo) [NArray [NString "yup.string"]]
                   VUndefined ;;
     foldM (chain_step (or_yup VUndefined)) [NString "second"]
       (append_literal toReturn (NString "first"))).
Proof.
  assert (H1 : [NArray [NString "yup.string"]] <> []) by discriminate.
  assert (H2 : NString "first" <> shape_continuation) by discriminate.
  split; [exact H1|split; [reflexivity|split; [exact H2|]]].
  apply (chain_literal_appended (L := demo)
           [NArray [NString "yup.string"]] (NString "first") [NString "second"]
           VUndefined H1 eq_refl H2).
Defined.

Lemma chain_shape_continuation_witness :
  [NArray [NString "yup.string"]] <> [] /\
  transformArray (L := demo)
    ([NArray [NString "yup.string"]] ++ shape_continuation :: []) VUndefined
  = Ok (VObject [("0", VString "o"); ("1", VString "b"); ("2", VString "j");
                 ("3", VString "e"); ("4", VString "c"); ("5", VString "t")]).
Proof.
  assert (H1 : [NArray [NString "yup.string"]] <> []) by discriminate.
  split; [exact H1|].
  destruct (chain_shape_continuation (L := demo) _ [] VUndefined H1) as [-> ->].
  reflexivity.
Defined.

Lemma builder_call_policy_witness :
  isArray (nth 0 (ensureArray (NArray [NString "yup.min"; NNumber 50])) NUndefined)
  = false /\
  convertArray (L := demo) (NArray [NString "yup.min"; NNumber 50]) number_schema
  = invoke number_min [VNumber 50].
Proof.
  split; [reflexivity|].
  apply (builder_call_policy (L := demo) (NArray [NString "yup.min"; NNumber 50])
           number_schema number_min [NNumber 50] (VArray [VNumber 50]));
    reflexivity.
Defined.

Lemma transform_wraps_validation_errors_witness :
  transform (L := demo) bogus_shape
  = Throw (Error ("Could not validate " ++ JSON_stringify bogus_shape
                    ++ newline ++ "Could not find validator bogus")) /\
  transformObject (L := demo)
    (NObject ([("a", NNumber 1)] ++ ("b", bogus_shape) :: [("c", NNumber 2)]))
    VUndefined
  = Throw (ValidationError "Could not find validator bogus").
Proof.
  pose proof (transform_wraps_validation_errors (L := demo) bogus_shape) as H.
  destruct H as [Hwrap H]. do 19 (destruct H as [_ H]).
  destruct H as [Hnested _].
  split.
  - apply Hwrap. reflexivity.
  - apply (Hnested _ [("a", NNumber 1)] "b" bogus_shape [("c", NNumber 2)]
             VUndefined (VObject [("a", VNumber 1)]));
      reflexivity.
Defined.

(** ** Further properties of the converter *)

Section Further.

Context {L : Library}.

Local Abbreviation val := (value host).
Local Abbreviation res := (result host_exn).
Local Abbreviation fn := (builder host host_exn).

Arguments exec : simpl never.
Arguments transformAll : simpl never.
Arguments transformArray : simpl never.
Arguments convertArray : simpl never.
Arguments transformObject : simpl never.

(** *** [getSubString] *)

Lemma substring_cut (s : string) (i k : nat) :
  String.length (substring i k s) = k -> 0 < k ->
  exists pre,
    String.length pre = i /\
    s = pre ++ substring i k s
            ++ substring (i + k) (String.length s - (i + k)) s.
Proof.
  revert s. induction i as [|i IH]; intros s Hlen Hk.
  - exists "". split; [reflexivity|]. simpl. now apply substring_prefix_rest.
  - destruct s as [|c s].
    + destruct k; [lia|discriminate].
    + simpl in Hlen. destruct (IH s Hlen Hk) as (pre & Hl & Hs).
      exists (String c pre). split; simpl; [now rewrite Hl|].
      f_equal. exact Hs.
Qed.

Lemma length_pos_nonempty (s : string) : s <> "" -> 0 < String.length s.
Proof. destruct s; [congruence|simpl; lia]. Qed.

(** X1.  On a string, [getSubString] never throws.  It answers [null]
    exactly when the string is empty or does not contain the substring, and
    otherwise what follows the first occurrence of the substring. *)
Theorem getSubString_after_first_occurrence (s sub : string) :
  sub <> "" ->
  (getSubString (NString s) sub = Ok None <-> s = "" \/ ~ contains sub s) /\
  (forall r,
      getSubString (NString s) sub = Ok (Some r) ->
      exists pre rest,
        r = NString rest /\ s = pre ++ sub ++ rest /\
        forall p, p < String.length pre ->
                  substring p (String.length sub) s <> sub) /\
  (forall e, getSubString (NString s) sub <> Throw e).
Proof.
  intros Hsub. unfold getSubString. cbn [truthy].
  destruct (String.eqb s "") eqn:Hs; cbn [negb].
  - apply String.eqb_eq in Hs.
    split; [|split]; [split; auto|discriminate|discriminate].
  - apply String.eqb_neq in Hs.
    pose proof (indexOf_contains s sub Hsub) as Hc.
    destruct (indexOf s sub) as [i|] eqn:Hi.
    + split; [|split]; [split|..]; try discriminate.
      * intros [Hempty|Hnot]; [congruence|]. exfalso. apply Hnot, Hc.
        discriminate.
      * intros r [= <-]. unfold indexOf in Hi.
        pose proof (index_correct1 _ _ _ _ Hi) as H1.
        destruct (substring_cut s i (String.length sub)) as (pre & Hl & Hpre).
        { now rewrite H1. }
        { now apply length_pos_nonempty. }
        exists pre, (slice s (i + String.length sub)).
        split; [reflexivity|split].
        -- unfold slice. now rewrite H1 in Hpre.
        -- intros p Hp. apply (index_correct2 _ _ _ _ Hi); lia.
    + split; [|split]; [split; [|reflexivity]|..]; try discriminate.
      intros _. right. intros Hyes. apply Hc in Hyes. congruence.
Qed.

(** *** [getYupFunction] *)

(** X2.  A name wrapped in an array is resolved as the name itself: the
    first element of the wrapper is what is looked up, and an empty wrapper
    is looked up as [undefined]. *)
Theorem getYupFunction_unwraps
  (name : node) (rest : list node) (previousInstance : val) :
  isArray name = false ->
  getYupFunction (NArray (name :: rest)) previousInstance
  = getYupFunction name previousInstance /\
  getYupFunction (NArray []) previousInstance
  = getYupFunction NUndefined previousInstance.
Proof.
  intros Hname. split; [|reflexivity].
  unfold getYupFunction. cbn [nth]. now destruct name.
Qed.

(** X3.  Name resolution fails in two ways only: with a [TypeError] of the
    runtime, or with the error that names the unresolved name. *)
Theorem getYupFunction_errors
  (functionName : node) (previousInstance : val) (e : exn host_exn) :
  getYupFunction functionName previousInstance = Throw e ->
  e = TypeError \/
  e = ValidationError
        ("Could not find validator "
           ++ ToString match functionName with
                       | NArray items => nth 0 items NUndefined
                       | _ => functionName
                       end).
Proof.
  unfold getYupFunction.
  generalize (match functionName with
              | NArray items => nth 0 items NUndefined
              | _ => functionName
              end).
  intros name.
  destruct (getCustomValidator name); [discriminate|].
  unfold getSubString, member.
  repeat match goal with
         | |- context [match ?x with _ => _ end] => destruct x; cbn [bind]
         | |- context [if ?x then _ else _] => destruct x; cbn [bind]
         end;
    try discriminate; intros [= <-]; auto.
Qed.

(** *** Invocations *)

Lemma bind_Ok {A} (m : res A) : bind m Ok = m.
Proof. now destruct m. Qed.

Lemma transformAll_nil (previousInstance : val) :
  transformAll (NArray []) previousInstance = Ok (VArray []).
Proof. now rewrite transformAll_eq. Qed.

Lemma ensureArray_bare (x : node) : isArray x = false -> ensureArray x = [x].
Proof. destruct x; try reflexivity; discriminate. Qed.

Lemma convertArray_no_arguments (x : node) (previousInstance : val) :
  isArray x = false -> strict_eq_string x "yup.matches" = false ->
  convertArray x previousInstance
  = (gotFunc <- getYupFunction x (or_yup previousInstance) ;;
     invoke gotFunc []).
Proof.
  intros Hx Hname. rewrite convertArray_eq. cbv zeta.
  rewrite (ensureArray_bare x Hx).
  cbn [nth tl]. rewrite Hx. unfold matchesArgument. rewrite Hname.
  cbn [andb bind]. rewrite transformAll_nil.
  destruct (getYupFunction x _); reflexivity.
Qed.

(** X4.  A name that is not given inside an array is called as an
    invocation without arguments; the two spellings compile alike.  The bare
    name ["yup.matches"] is refused once it is resolved, for want of a first
    argument. *)
Theorem convertArray_bare_name (x : node) (previousInstance : val) :
  isArray x = false ->
  convertArray x previousInstance = convertArray (NArray [x]) previousInstance /\
  (strict_eq_string x "yup.matches" = false ->
   convertArray x previousInstance
   = (gotFunc <- getYupFunction x (or_yup previousInstance) ;;
      invoke gotFunc [])) /\
  (strict_eq_string x "yup.matches" = true ->
   convertArray x previousInstance
   = (_ <- getYupFunction x (or_yup previousInstance) ;;
      Throw (ValidationError matches_message))).
Proof.
  intros Hx. pose proof (ensureArray_bare x Hx) as Hens.
  split; [|split].
  - rewrite (convertArray_eq x), (convertArray_eq (NArray [x])).
    now rewrite Hens.
  - now apply convertArray_no_arguments.
  - intros Hname. rewrite convertArray_eq. cbv zeta. rewrite Hens.
    cbn [nth tl]. rewrite Hx. unfold matchesArgument. rewrite Hname.
    destruct (getYupFunction x _); reflexivity.
Qed.

(** X5.  An empty chain is compiled as the invocation of [undefined]: unless
    the registry holds a validator for [undefined], which is then called
    without arguments, it fails with a name-resolution error. *)
Theorem transformArray_empty (previousInstance : val) :
  transformArray [] previousInstance =
  match getCustomValidator NUndefined with
  | Some customValidator => invoke customValidator []
  | None => Throw (ValidationError "Could not find validator undefined")
  end.
Proof.
  rewrite transformArray_eq. cbn [nth tl].
  rewrite convertArray_no_arguments by reflexivity.
  unfold getYupFunction. cbn [bind getSubString truthy negb ToString].
  destruct (getCustomValidator NUndefined) as [f|]; cbn [bind foldM].
  - destruct (invoke f []); reflexivity.
  - reflexivity.
Qed.

(** X6.  Extra brackets around an invocation change nothing but the context:
    the invocation inside is compiled against the library root. *)
Theorem convertArray_extra_brackets (inner : list node) (previousInstance : val) :
  convertArray (NArray [NArray inner]) previousInstance
  = convertArray (NArray inner) (VHost yup).
Proof.
  rewrite convertArray_eq. cbv zeta. cbn [ensureArray nth isArray].
  rewrite transformArray_eq. cbn [nth tl or_yup].
  destruct (convertArray (NArray inner) (VHost yup)); reflexivity.
Qed.

(** X7.  In a chain, an element that is an array is compiled as an
    invocation whose chaining context is the result of the elements before
    it, and its result is the accumulator for the elements after it. *)
Theorem chain_invocation_step
  (pre : list node) (item : node) (post : list node) (previousInstance : val) :
  pre <> [] -> isArray item = true ->
  transformArray (pre ++ item :: post) previousInstance =
  (toReturn <- transformArray pre previousInstance ;;
   next <- convertArray item toReturn ;;
   foldM (chain_step (or_yup previousInstance)) post next).
Proof.
  intros Hpre Hitem. rewrite transformArray_snoc by assumption.
  destruct (transformArray pre previousInstance) as [toReturn|e];
    [|reflexivity].
  cbn [bind foldM]. unfold chain_step at 1. now rewrite Hitem.
Qed.

(** X8.  A chaining context that is [undefined], as when the previous
    builder returned nothing, stands for the library root in every function
    of the converter. *)
Theorem undefined_context_is_root (x : node) (l : list node) :
  getYupFunction x VUndefined = getYupFunction x (VHost yup) /\
  convertArray x VUndefined = convertArray x (VHost yup) /\
  transformArray l VUndefined = transformArray l (VHost yup) /\
  transformObject x VUndefined = transformObject x (VHost yup) /\
  transformAll x VUndefined = transformAll x (VHost yup).
Proof.
  split; [reflexivity|]. split; [|split; [|split]].
  - rewrite (convertArray_eq x VUndefined), (convertArray_eq x (VHost yup)).
    reflexivity.
  - rewrite (transformArray_eq l VUndefined), (transformArray_eq l (VHost yup)).
    reflexivity.
  - rewrite (transformObject_eq x VUndefined), (transformObject_eq x (VHost yup)).
    reflexivity.
  - rewrite (transformAll_eq x VUndefined), (transformAll_eq x (VHost yup)).
    reflexivity.
Qed.

(** *** Plain lists *)

Lemma mapM_Ok {A B} (f : A -> res B) (l : list A) (ys : list B) :
  mapM f l = Ok ys -> Forall2 (fun x y => f x = Ok y) l ys.
Proof.
  revert ys. induction l as [|x l IH]; intros ys; simpl.
  - intros [= <-]. constructor.
  - destruct (f x) as [y|] eqn:Hx; simpl; [|discriminate].
    destruct (mapM f l) as [zs|]; simpl; [|discriminate].
    intros [= <-]. constructor; auto.
Qed.

Lemma mapM_Throw {A B} (f : A -> res B) (l : list A) e :
  mapM f l = Throw e ->
  exists before x after,
    l = (before ++ x :: after)%list /\ f x = Throw e /\
    exists ys, mapM f before = Ok ys.
Proof.
  induction l as [|x l IH]; simpl; [discriminate|].
  destruct (f x) as [y|e'] eqn:Hx; simpl.
  - destruct (mapM f l) as [zs|e'] eqn:Hl; simpl; [discriminate|].
    intros [= <-]. destruct (IH eq_refl) as (before & z & after & -> & Hz & ys & Hys).
    exists (x :: before), z, after. repeat split; auto.
    simpl. rewrite Hx, Hys. simpl. eauto.
  - intros [= <-]. exists [], x, l. repeat split; auto. simpl. eauto.
Qed.

(** X9.  A list that is not an invocation is compiled into a list of the
    same length, the compilation of each element against the same context;
    it fails with the error of its first element that fails. *)
Theorem plain_list_elementwise (items : list node) (previousInstance : val) :
  isPrefixNotation (NArray items) = false ->
  (forall v,
      transformAll (NArray items) previousInstance = Ok v ->
      exists compiled,
        v = VArray compiled /\
        List.length compiled = List.length items /\
        Forall2 (fun i w => transformAll i (or_yup previousInstance) = Ok w)
          items compiled) /\
  (forall e,
      transformAll (NArray items) previousInstance = Throw e ->
      exists before i after,
        items = (before ++ i :: after)%list /\
        transformAll i (or_yup previousInstance) = Throw e /\
        exists compiled,
          Forall2 (fun j w => transformAll j (or_yup previousInstance) = Ok w)
            before compiled).
Proof.
  intros Hplain. rewrite transformAll_eq. cbn [isArray ensureArray].
  rewrite Hplain. split.
  - intros v. destruct (mapM _ items) as [compiled|] eqn:Hmap; [|discriminate].
    intros [= <-]. apply mapM_Ok in Hmap. exists compiled.
    split; [reflexivity|split; [|exact Hmap]].
    symmetry. eapply Forall2_length, Hmap.
  - intros e. destruct (mapM _ items) as [compiled|e'] eqn:Hmap; [discriminate|].
    intros [= <-]. apply mapM_Throw in Hmap.
    destruct Hmap as (before & i & after & -> & Hi & ys & Hys).
    exists before, i, after. split; [reflexivity|split; [exact Hi|]].
    exists ys. now apply mapM_Ok.
Qed.

(** *** The entry point *)


(** *** Mappings *)

Lemma eqb_sym_string (a b : string) : String.eqb a b = String.eqb b a.
Proof.
  destruct (String.eqb a b) eqn:Hab.
  - apply String.eqb_eq in Hab. subst. symmetry. apply String.eqb_refl.
  - symmetry. apply String.eqb_neq. apply String.eqb_neq in Hab. congruence.
Qed.

Lemma distinct_app_cons (before : list string) (k : string) (rest : list string) :
  distinct (before ++ k :: rest) = true -> mem k before = false.
Proof.
  induction before as [|x before IH]; [reflexivity|].
  cbn [app distinct mem existsb]. intros H.
  apply andb_true_iff in H. destruct H as [Hx Hd].
  apply negb_true_iff in Hx. unfold mem in Hx.
  rewrite existsb_app in Hx. apply orb_false_iff in Hx.
  destruct Hx as [_ Hx]. cbn [existsb] in Hx.
  apply orb_false_iff in Hx. destruct Hx as [Hxk _].
  rewrite eqb_sym_string, Hxk. cbn [orb]. apply IH, Hd.
Qed.

Lemma obj_set_fresh (o : list (string * val)) (k : string) (v : val) :
  mem k (map fst o) = false -> obj_set o k v = (o ++ [(k, v)])%list.
Proof.
  induction o as [|[k' w] o IH]; [reflexivity|].
  cbn [map fst mem existsb obj_set app]. intros H.
  apply orb_false_iff in H. destruct H as [Hk Ho].
  rewrite eqb_sym_string, Hk. f_equal. apply IH, Ho.
Qed.

Lemma shape_step_sets (p : val) (o o' : list (string * val)) (e : string * node) :
  shape_step p o e = Ok o' -> exists v, o' = obj_set o (fst e) v.
Proof.
  destruct e as [k x]. unfold shape_step. cbn [fst].
  destruct (isArray x).
  - destruct (transformArray _ _); cbn [bind]; [|discriminate].
    intros [= <-]. eauto.
  - destruct (typeof_object x).
    + destruct (transformObject _ _); cbn [bind]; [|discriminate].
      intros [= <-]. eauto.
    + intros [= <-]. eauto.
Qed.

Lemma shape_fold_keys (p : val) (es : list (string * node))
  (o out : list (string * val)) :
  foldM (shape_step p) es o = Ok out ->
  distinct (map fst o ++ map fst es) = true ->
  map fst out = (map fst o ++ map fst es)%list.
Proof.
  revert o. induction es as [|e es IH]; intros o; cbn [foldM map].
  - intros [= <-] _. now rewrite app_nil_r.
  - destruct (shape_step p o e) as [o'|] eqn:Hstep; cbn [bind]; [|discriminate].
    intros Hfold Hd. destruct (shape_step_sets _ _ _ _ Hstep) as [v ->].
    rewrite (obj_set_fresh o (fst e) v (distinct_app_cons _ _ _ Hd)) in Hfold.
    apply IH in Hfold.
    + rewrite Hfold, map_app. cbn [map fst]. now rewrite <- app_assoc.
    + rewrite map_app. cbn [map fst]. now rewrite <- app_assoc.
Qed.

(** X11.  The shape compiler returns an object with the keys of its input,
    in the same order, when these keys are distinct and none of them is
    [__proto__]. *)
Theorem transformObject_keeps_keys
  (jsonObject : node) (entries : list (string * node))
  (previousInstance v : val) :
  Object_entries jsonObject = Ok entries ->
  distinct (map fst entries) = true ->
  mem "__proto__" (map fst entries) = false ->
  transformObject jsonObject previousInstance = Ok v ->
  exists toReturn, v = VObject toReturn /\ map fst toReturn = map fst entries.
Proof.
  intros Hentries Hd _. rewrite transformObject_eq, Hentries. cbn [bind].
  destruct (foldM _ entries []) as [out|] eqn:Hfold; cbn [bind]; [|discriminate].
  intros [= <-]. exists out. split; [reflexivity|].
  now apply shape_fold_keys in Hfold.
Qed.

(** *** Literal arguments *)

Lemma value_truthy_lit (x : node) : value_truthy (lit (host := host) x) = truthy x.
Proof. now destruct x. Qed.

Lemma transformAll_literal (x : node) (p : val) :
  literal_argument x = true -> transformAll x p = Ok (lit x).
Proof.
  unfold literal_argument. intros H. apply andb_true_iff in H.
  destruct H as [Ha Ho]. apply negb_true_iff in Ha, Ho.
  now apply transformAll_scalar.
Qed.

Lemma mapM_pointwise {A B} (f : A -> res B) (g : A -> B) (l : list A) :
  (forall x, In x l -> f x = Ok (g x)) -> mapM f l = Ok (map g l).
Proof.
  induction l as [|x l IH]; intros H; [reflexivity|].
  cbn [mapM map]. rewrite (H x (or_introl eq_refl)). cbn [bind].
  rewrite IH; [reflexivity|]. intros y Hy. apply H. now right.
Qed.

Lemma all_falsy_lit (args : list node) :
  all_falsy (map (lit (host := host)) args)
  = forallb (fun a => negb (truthy a)) args.
Proof.
  induction args as [|a args IH]; [reflexivity|].
  cbn [map all_falsy forallb]. rewrite value_truthy_lit. f_equal. exact IH.
Qed.

(** X12.  Arguments that are literals reach the builder unchanged and in
    order, unless every one of them is falsy: the builder is then called
    without arguments, so that [['yup.min', 0]] calls [min()]. *)
Theorem literal_arguments_policy
  (name : node) (args : list node) (previousInstance : val) (gotFunc : fn) :
  isArray name = false ->
  strict_eq_string name "yup.matches" = false ->
  forallb literal_argument args = true ->
  isPrefixNotation (NArray args) = false ->
  getYupFunction name (or_yup previousInstance) = Ok gotFunc ->
  convertArray (NArray (name :: args)) previousInstance =
  if forallb (fun a => negb (truthy a)) args
  then invoke gotFunc []
  else invoke gotFunc (map lit args).
Proof.
  intros Hname Hmatches Hlit Hplain Hfun.
  rewrite convertArray_eq. cbv zeta. cbn [ensureArray nth tl].
  rewrite Hname, Hfun. cbn [bind]. unfold matchesArgument.
  rewrite Hmatches. cbn [andb bind].
  rewrite transformAll_eq. cbn [isArray ensureArray]. rewrite Hplain.
  rewrite (mapM_pointwise _ lit).
  - cbn [bind]. unfold callWith.
    now rewrite no_truthy_all_falsy, all_falsy_lit.
  - intros x Hx. apply transformAll_literal.
    rewrite forallb_forall in Hlit. now apply Hlit.
Qed.

(** *** Plain data *)

Lemma plain_fold (p : val) (es : list (string * node)) (o : list (string * val)) :
  distinct (map fst o ++ map fst es) = true ->
  (forall e, In e es ->
             plain true (snd e) = true /\
             (typeof_object (snd e) = true ->
              transformObject (snd e) p = Ok (lit (snd e)))) ->
  foldM (shape_step p) es o
  = Ok (o ++ map (fun e => (fst e, lit (snd e))) es)%list.
Proof.
  revert o. induction es as [|[k x] es IH]; intros o Hd Hes.
  - cbn [foldM map]. now rewrite app_nil_r.
  - cbn [foldM]. destruct (Hes (k, x) (or_introl eq_refl)) as [Hplain Hobj].
    cbn [snd] in Hplain, Hobj.
    assert (Hstep : shape_step p o (k, x) = Ok (obj_set o k (lit x))).
    { unfold shape_step.
      destruct x; cbn [isArray typeof_object]; try reflexivity;
        try discriminate Hplain.
      now rewrite Hobj. }
    rewrite Hstep. cbn [bind].
    cbn [map fst] in Hd.
    rewrite (obj_set_fresh o k (lit x) (distinct_app_cons _ _ _ Hd)).
    rewrite IH.
    + cbn [map fst snd]. now rewrite <- app_assoc.
    + rewrite map_app. cbn [map fst]. now rewrite <- app_assoc.
    + intros e He. apply Hes. now right.
Qed.

Lemma plain_compiles (n : nat) (x : node) :
  weight x < n ->
  (plain true x = true -> typeof_object x = true ->
   forall p, transformObject x p = Ok (lit x)) /\
  (plain false x = true -> forall p, transformAll x p = Ok (lit x)).
Proof.
  revert x. induction n as [|n IH]; intros x Hn; [lia|].
  assert (Hobject : forall es, x = NObject es -> plain true x = true ->
                               forall p, transformObject x p = Ok (lit x)).
  { intros es -> Hplain p. cbn [plain] in Hplain.
    apply andb_true_iff in Hplain. destruct Hplain as [Hkeys Hes].
    apply andb_true_iff in Hkeys. destruct Hkeys as [_ Hd].
    rewrite transformObject_eq. cbn [Object_entries own_entries bind].
    rewrite plain_fold.
    - reflexivity.
    - exact Hd.
    - intros e He. rewrite forallb_forall in Hes. split; [now apply Hes|].
      intros Hobj. apply IH; [|now apply Hes|exact Hobj].
      destruct e as [k v].
      pose proof (weight_entry (NObject es) es k v eq_refl He Hobj).
      cbn [snd]. lia. }
  split.
  - intros Hplain Hobj p.
    destruct x; try discriminate Hobj; try discriminate Hplain.
    now apply (Hobject entries).
  - intros Hplain p. destruct x; try discriminate Hplain.
    + now apply transformAll_scalar.
    + now apply transformAll_scalar.
    + now apply transformAll_scalar.
    + now apply transformAll_scalar.
    + now apply transformAll_scalar.
    + cbn [plain negb andb] in Hplain.
      apply andb_true_iff in Hplain. destruct Hplain as [Hpre Hitems].
      apply negb_true_iff in Hpre.
      rewrite transformAll_eq. cbn [isArray ensureArray]. rewrite Hpre.
      rewrite (mapM_pointwise _ lit); [reflexivity|].
      intros i Hi. rewrite forallb_forall in Hitems.
      apply IH; [|now apply Hitems].
      apply weight_In in Hi. cbn [weight] in Hn. lia.
    + rewrite transformAll_eq. cbn [isArray typeof_object isRegExp negb andb].
      now apply (Hobject entries).
Qed.

(** X13.  Data that holds no invocation is returned unchanged, by
    [transformAll] whatever the context, and by [transform] when it is a
    list.  Such data is made of strings, numbers, booleans and regular
    expressions, of lists that are not invocations, and of mappings whose
    keys are distinct and other than [__proto__] and whose values are
    strings, numbers, booleans or such mappings. *)
Theorem plain_data_unchanged (x : node) (previousInstance : val) :
  plain false x = true ->
  transformAll x previousInstance = Ok (lit x) /\
  (isArray x = true -> transform x = Ok (lit x)).
Proof.
  intros Hplain.
  destruct (plain_compiles (S (weight x)) x (Nat.lt_succ_diag_r _))
    as [_ Hall].
  split; [now apply Hall|].
  intros Harr. rewrite transform_eq. unfold compiled_input. rewrite Harr.
  now rewrite Hall.
Qed.

(** *** A bare mapping *)

Lemma transformObject_returns_object (x : node) (p v : val) :
  transformObject x p = Ok v -> exists o, v = VObject o.
Proof.
  rewrite transformObject_eq.
  destruct (Object_entries x); cbn [bind]; [|discriminate].
  destruct (foldM _ _ _); cbn [bind]; [|discriminate].
  intros [= <-]. eauto.
Qed.

Lemma convertArray_name_only (name : string) (p : val) :
  String.eqb name "yup.matches" = false ->
  convertArray (NArray [NString name]) p
  = (gotFunc <- getYupFunction (NString name) (or_yup p) ;; invoke gotFunc []).
Proof.
  intros Hname. rewrite convertArray_eq. cbv zeta.
  cbn [ensureArray nth tl isArray]. unfold matchesArgument.
  cbn [strict_eq_string]. rewrite Hname. cbn [andb bind].
  rewrite transformAll_nil.
  destruct (getYupFunction _ _); reflexivity.
Qed.

(** X14.  On a bare mapping, [transform] returns the result of
    [yup.object().required().shape(s)], where [s] is the mapping compiled by
    the shape compiler against the required object validator, provided the
    three names resolve and the first two calls return. *)
Theorem bare_mapping_builds_shape
  (entries : list (string * node))
  (object required shape : fn) (s1 s2 compiled : val) :
  getYupFunction (NString "yup.object") (VHost yup) = Ok object ->
  object [] = inl s1 ->
  getYupFunction (NString "yup.required") (or_yup s1) = Ok required ->
  required [] = inl s2 ->
  getYupFunction (NString "yup.shape") (or_yup s2) = Ok shape ->
  transformObject (NObject entries) (or_yup s2) = Ok compiled ->
  transform (NObject entries) = invoke shape [compiled].
Proof.
  intros Hobject Hs1 Hrequired Hs2 Hshape Hcompiled.
  rewrite transform_eq. unfold compiled_input, explicit_chain. cbn [isArray].
  rewrite transformAll_eq. cbn [isArray ensureArray].
  replace (isPrefixNotation _) with true by reflexivity.
  rewrite transformArray_eq. cbn [nth tl or_yup].
  rewrite convertArray_name_only by reflexivity.
  cbn [or_yup]. rewrite Hobject. cbn [bind]. unfold invoke at 1.
  rewrite Hs1. cbn [bind foldM]. unfold chain_step at 1. cbn [isArray].
  rewrite convertArray_name_only by reflexivity.
  rewrite Hrequired. cbn [bind]. unfold invoke at 1. rewrite Hs2.
  cbn [bind]. unfold chain_step at 1. cbn [isArray].
  rewrite convertArray_eq. cbv zeta. cbn [ensureArray nth tl isArray].
  rewrite Hshape. cbn [bind]. unfold matchesArgument.
  cbn [strict_eq_string].
  replace ("yup.shape" =? "yup.matches") with false by reflexivity.
  cbn [andb bind].
  rewrite transformAll_eq. cbn [isArray ensureArray].
  replace (isPrefixNotation (NArray [NObject entries])) with false
    by reflexivity.
  cbn [mapM]. rewrite or_yup_idem.
  rewrite transformAll_eq. cbn [isArray typeof_object isRegExp negb andb].
  rewrite or_yup_idem, Hcompiled. cbn [bind].
  destruct (transformObject_returns_object _ _ _ Hcompiled) as [o ->].
  unfold callWith. cbn [filter value_truthy List.length Nat.ltb Nat.leb].
  unfold invoke. destruct (shape [VObject o]); reflexivity.
Qed.

End Further.

(** ** The further properties at work on the demo library *)

Lemma getSubString_after_first_occurrence_witness :
  "yup." <> "" /\
  exists pre rest,
    NString "min" = NString rest /\ "yup.min" = pre ++ "yup." ++ rest /\
    forall p, p < String.length pre ->
              substring p (String.length "yup.") "yup.min" <> "yup.".
Proof.
  assert (H : "yup." <> "") by discriminate.
  split; [exact H|].
  apply (proj1 (proj2 (getSubString_after_first_occurrence
                         (L := demo) "yup.min" "yup." H))).
  reflexivity.
Defined.

Lemma getYupFunction_unwraps_witness :
  isArray (NString "yup.min") = false /\
  getYupFunction (L := demo) (NArray [NString "yup.min"; NNumber 5]) number_schema
  = getYupFunction (L := demo) (NString "yup.min") number_schema.
Proof.
  split; [reflexivity|].
  apply (proj1 (getYupFunction_unwraps (L := demo) (NString "yup.min")
                  [NNumber 5] number_schema eq_refl)).
Defined.

Lemma getYupFunction_errors_witness :
  getYupFunction (L := demo) (NString "bogus") VUndefined
  = Throw (ValidationError "Could not find validator bogus") /\
  (ValidationError (host_exn := Empty_set) "Could not find validator bogus"
   = TypeError \/
   ValidationError (host_exn := Empty_set) "Could not find validator bogus"
   = ValidationError ("Could not find validator " ++ ToString (NString "bogus"))).
Proof.
  split; [reflexivity|].
  apply (getYupFunction_errors (L := demo) (NString "bogus") VUndefined).
  reflexivity.
Defined.

Lemma convertArray_bare_name_witness :
  isArray (NString "yup.number") = false /\
  convertArray (L := demo) (NString "yup.number") VUndefined
  = convertArray (L := demo) (NArray [NString "yup.number"]) VUndefined.
Proof.
  split; [reflexivity|].
  apply (proj1 (convertArray_bare_name (L := demo) (NString "yup.number")
                  VUndefined eq_refl)).
Defined.

Lemma chain_invocation_step_witness :
  [NArray [NString "yup.number"]] <> [] /\
  isArray (NArray [NString "yup.required"]) = true /\
  transformArray (L := demo)
    ([NArray [NString "yup.number"]] ++ NArray [NString "yup.required"] :: [])
    VUndefined
  = (toReturn <- transformArray (L := demo) [NArray [NString "yup.number"]]
                   VUndefined ;;
     next <- convertArray (L := demo) (NArray [NString "yup.required"]) toReturn ;;
     foldM (chain_step (or_yup VUndefined)) [] next).
Proof.
  assert (H : [NArray [NString "yup.number"]] <> []) by discriminate.
  split; [exact H|split; [reflexivity|]].
  apply (chain_invocation_step (L := demo) [NArray [NString "yup.number"]]
           (NArray [NString "yup.required"]) [] VUndefined H eq_refl).
Defined.

Lemma plain_list_elementwise_witness :
  isPrefixNotation (NArray [NNumber 1; NString "a"]) = false /\
  exists compiled,
    VArray (host := demo_host) [VNumber 1; VString "a"] = VArray compiled /\
    List.length compiled = 2 /\
    Forall2 (fun i w => transformAll (L := demo) i (or_yup VUndefined) = Ok w)
      [NNumber 1; NString "a"] compiled.
Proof.
  split; [reflexivity|].
  apply (proj1 (plain_list_elementwise (L := demo) [NNumber 1; NString "a"]
                  VUndefined eq_refl)).
  reflexivity.
Defined.

Lemma transformObject_keeps_keys_witness :
  distinct (map fst [("a", NNumber 1); ("b", NString "x")]) = true /\
  mem "__proto__" (map fst [("a", NNumber 1); ("b", NString "x")]) = false /\
  exists toReturn,
    VObject (host := demo_host) [("a", VNumber 1); ("b", VString "x")]
    = VObject toReturn /\
    map fst toReturn = ["a"; "b"].
Proof.
  split; [reflexivity|split; [reflexivity|]].
  apply (transformObject_keeps_keys (L := demo)
           (NObject [("a", NNumber 1); ("b", NString "x")])
           [("a", NNumber 1); ("b", NString "x")] VUndefined
           (VObject [("a", VNumber 1); ("b", VString "x")]));
    reflexivity.
Defined.

Lemma literal_arguments_policy_witness :
  forallb literal_argument [NNumber 0] = true /\
  convertArray (L := demo) (NArray [NString "yup.min"; NNumber 0]) number_schema
  = invoke number_min [].
Proof.
  split; [reflexivity|].
  apply (literal_arguments_policy (L := demo) (NString "yup.min") [NNumber 0]
           number_schema number_min);
    reflexivity.
Defined.

Lemma plain_data_unchanged_witness :
  plain false plain_sample = true /\
  transformAll (L := demo) plain_sample VUndefined = Ok (lit plain_sample).
Proof.
  split; [reflexivity|].
  apply (proj1 (plain_data_unchanged (L := demo) plain_sample VUndefined
                  eq_refl)).
Defined.

Lemma bare_mapping_builds_shape_witness :
  getYupFunction (L := demo) (NString "yup.shape") required_object_schema
  = Ok object_shape /\
  transform (L := demo) (NObject field_sample)
  = invoke object_shape [VObject [("x", number_schema)]].
Proof.
  split; [reflexivity|].
  apply (bare_mapping_builds_shape (L := demo) field_sample
           yup_object object_required object_shape
           object_schema required_object_schema
           (VObject [("x", number_schema)]));
    reflexivity.
Defined.
